(** * SimplePager: a shallow embedding of osgEarthUtil/SimplePager.cpp

    The pager builds one [osg::PagedLOD] per tile key.  Slot 0 of the
    paged LOD holds the tile's own content, slot 1 is a file name that the
    database pager later resolves, through the pseudo loader
    [SimplePagerPseudoLoader], into the group of the four child tiles.

    Conventions of the embedding.
    - [unsigned] values are integers in [Z]; arithmetic on them wraps
      modulo 2^32 ([wrap32]).
    - [float] and [double] quantities (radii, ranges, coordinates) are
      real numbers: rounding, NaN and overflow are outside the model.
      [FLT_MAX] is the real number that the C constant denotes.
    - Pointers that may be null are options; dereferencing a null pointer
      is the outcome [NullDereference].
    - What the pager calls in OpenSceneGraph ([BoundingSphere::expandBy],
      [LOD::setRange], [PagedLOD::addChild] and [setFileName], the user
      data container, [osgDB::getLowerCaseFileExtension]) is embedded as
      OpenSceneGraph implements it; tile extents, the projection to world
      coordinates and the root keys of a profile are parameters.
    - The virtual method [createNode] is a function of the pager object;
      each call is recorded in a log that the pager operations thread
      through. *)

From Stdlib Require Import ZArith Lia List Bool String Ascii Reals Lra Psatz.
Import ListNotations.

Open Scope Z_scope.

(** ** Unsigned arithmetic *)

Definition wrap32 (z : Z) : Z := z mod 2 ^ 32.

Definition is_unsigned (z : Z) : Prop := 0 <= z < 2 ^ 32.

(** ** The frame progress tracker *)

(** [ProgressMaster]: the cull callback at the root of the paged graph; it
    holds the number of the frame last traversed. *)
Record ProgressMaster : Type := mkProgressMaster { _frame : Z }.

(** [ProgressMaster::operator()]: a visitor without frame stamp counts as
    frame 0. *)
Definition ProgressMaster_visit (stamp : option Z) (m : ProgressMaster)
  : ProgressMaster :=
  {| _frame := match stamp with Some f => f | None => 0 end |}.

(** The progress masters that are alive, by address.  An
    [osg::observer_ptr] is an address or null; it is valid when it is not
    null and the object at its address has not been destroyed. *)
Definition MasterStore : Type := nat -> option ProgressMaster.

Definition observer_ptr : Type := option nat.

Record MyProgressCallback : Type := mkProgress {
  _lastFrame : Z;
  _master : observer_ptr
}.

Definition lock (st : MasterStore) (p : observer_ptr) : option ProgressMaster :=
  match p with
  | Some a => st a
  | None => None
  end.

Definition valid (st : MasterStore) (p : observer_ptr) : bool :=
  match lock st p with
  | Some _ => true
  | None => false
  end.

(** [_master->_frame - _lastFrame], in unsigned arithmetic; evaluated only
    behind the validity test. *)
Definition frame_lag (st : MasterStore) (h : MyProgressCallback) : Z :=
  match lock st (_master h) with
  | Some m => wrap32 (_frame m - _lastFrame h)
  | None => 0
  end.

Definition isCanceled (st : MasterStore) (h : MyProgressCallback) : bool :=
  negb (valid st (_master h)) || (1 <? frame_lag st h).

(** [MyProgressCallback::touch]: a null frame stamp leaves the callback
    as it is. *)
Definition touch (stamp : option Z) (h : MyProgressCallback)
  : MyProgressCallback :=
  match stamp with
  | Some f => {| _lastFrame := f; _master := _master h |}
  | None => h
  end.

(** [ProgressUpdater]: the cull callback of one paged LOD; it owns the
    progress callback handed to the loader. *)
Record ProgressUpdater : Type := mkUpdater {
  pu_name : string;
  _progress : MyProgressCallback
}.

Definition ProgressUpdater_name : string :=
  "osgEarth::Util::SimplerPager::ProgressUpdater"%string.

(** The constructor of [MyProgressCallback] does not initialise
    [_lastFrame]; [indeterminate] is whatever the member holds. *)
Definition ProgressUpdater_new (master : observer_ptr) (indeterminate : Z)
  : ProgressUpdater :=
  {| pu_name := ProgressUpdater_name;
     _progress := {| _lastFrame := indeterminate; _master := master |} |}.

Definition ProgressUpdater_visit (stamp : option Z) (u : ProgressUpdater)
  : ProgressUpdater :=
  {| pu_name := pu_name u; _progress := touch stamp (_progress u) |}.

(** ** Geometry: vectors and bounding spheres *)

Open Scope R_scope.

Record Vec3 : Type := mkVec3 { vx : R; vy : R; vz : R }.

Definition vsub (a b : Vec3) : Vec3 :=
  mkVec3 (vx a - vx b) (vy a - vy b) (vz a - vz b).

Definition vadd (a b : Vec3) : Vec3 :=
  mkVec3 (vx a + vx b) (vy a + vy b) (vz a + vz b).

Definition vscale (a : Vec3) (k : R) : Vec3 :=
  mkVec3 (vx a * k) (vy a * k) (vz a * k).

Definition length2 (a : Vec3) : R := vx a * vx a + vy a * vy a + vz a * vz a.

Definition vlength (a : Vec3) : R := sqrt (length2 a).

Definition dot (a b : Vec3) : R := vx a * vx b + vy a * vy b + vz a * vz b.

(** [osg::BoundingSphere]: a negative radius marks the empty sphere. *)
Record BoundingSphere : Type := mkSphere { center : Vec3; radius : R }.

Definition BoundingSphere_init : BoundingSphere :=
  mkSphere (mkVec3 0 0 0) (-1).

Definition sphere_valid (bs : BoundingSphere) : bool :=
  if Rle_dec 0 (radius bs) then true else false.

(** [BoundingSphere::expandBy(const Vec3&)]: the first point becomes a
    sphere of radius 0; a point outside the sphere moves the centre half
    of the missing distance towards it and grows the radius by as much. *)
Definition expandBy (bs : BoundingSphere) (v : Vec3) : BoundingSphere :=
  if sphere_valid bs then
    let dv := vsub v (center bs) in
    let r := vlength dv in
    if Rlt_dec (radius bs) r then
      let dr := (r - radius bs) * (1 / 2) in
      mkSphere (vadd (center bs) (vscale dv (dr / r))) (radius bs + dr)
    else bs
  else mkSphere v 0.


(** [std::max(a, b)] is [(a < b) ? b : a]. *)
Definition std_max (a b : R) : R := if Rlt_dec a b then b else a.

Definition FLT_MAX : R := IZR (2 ^ 128 - 2 ^ 104).

Close Scope R_scope.

(** ** Tile keys *)

(** A profile is known to the pager only by reference. *)
Definition Profile : Type := nat.

Record TileKey : Type := mkTileKey {
  lod : Z;
  tile_x : Z;
  tile_y : Z;
  key_profile : Profile
}.

Definition key_wf (k : TileKey) : Prop :=
  is_unsigned (lod k) /\ is_unsigned (tile_x k) /\ is_unsigned (tile_y k).

(** Modelled from the spec: [TileKey::createChildKey] is declared in
    osgEarth/TileKey, which is not part of the sources at hand.  The four
    children of (L, X, Y) are (L+1, 2X+dx, 2Y+dy) for dx, dy in {0, 1}; the
    canonical order 0..3 is the one of the spec's scenario, where the
    children of (1,2,3) are (2,4,6), (2,5,6), (2,4,7), (2,5,7). *)
Definition createChildKey (k : TileKey) (quadrant : Z) : TileKey :=
  let dx := if (quadrant =? 1) || (quadrant =? 3) then 1 else 0 in
  let dy := if (quadrant =? 2) || (quadrant =? 3) then 1 else 0 in
  {| lod := wrap32 (lod k + 1);
     tile_x := wrap32 (2 * tile_x k + dx);
     tile_y := wrap32 (2 * tile_y k + dy);
     key_profile := key_profile k |}.

(** ** Strings: the file names of the pseudo loader *)

Open Scope string_scope.
Open Scope Z_scope.

Definition code (c : ascii) : Z := Z.of_nat (nat_of_ascii c).

Definition digit_char (d : Z) : ascii := ascii_of_nat (Z.to_nat (48 + d)).

Definition is_digit (c : ascii) : bool := (48 <=? code c) && (code c <=? 57).

Definition digit_val (c : ascii) : Z := code c - 48.

(** [isspace] in the C locale: blank, and the controls 9 to 13. *)
Definition isspace (c : ascii) : bool :=
  (code c =? 32) || ((9 <=? code c) && (code c <=? 13)).

(** [operator<<(unsigned)]: the decimal digits, most significant first,
    no sign, no padding.  An unsigned of 32 bits has at most 10 digits. *)
Fixpoint show_digits (fuel : nat) (n : Z) (acc : string) : string :=
  let acc' := String (digit_char (n mod 10)) acc in
  match fuel with
  | O => acc'
  | S f => if n <? 10 then acc' else show_digits f (n / 10) acc'
  end.

Definition show_unsigned (n : Z) : string := show_digits 9 n "".

Definition pseudo_extension : string := "osgearth_pseudo_simple".

(** The file name that [createPagedNode] writes into slot 1. *)
Definition tile_uri (k : TileKey) : string :=
  show_unsigned (lod k) ++ "_" ++ show_unsigned (tile_x k) ++ "_"
    ++ show_unsigned (tile_y k) ++ "." ++ pseudo_extension.

(** *** [sscanf] with the format "%d_%d_%d.%*s" *)

Fixpoint skip_space (s : string) : string :=
  match s with
  | String c r => if isspace c then skip_space r else s
  | EmptyString => EmptyString
  end.

Fixpoint scan_digits (acc : Z) (s : string) : Z * string :=
  match s with
  | String c r =>
      if is_digit c then scan_digits (acc * 10 + digit_val c) r else (acc, s)
  | EmptyString => (acc, EmptyString)
  end.

(** The conversion reads a [long] (64 bits, saturating as [strtol] does)
    and stores its low 32 bits through the [int*] that the caller passed,
    here the address of an [unsigned]. *)
Definition store_int (v : Z) : Z :=
  wrap32 (Z.max (- 2 ^ 63) (Z.min (2 ^ 63 - 1) v)).

(** One "%d": white space, an optional sign, at least one digit. *)
Definition scan_int (s : string) : option (Z * string) :=
  let s1 := skip_space s in
  let '(neg, s2) :=
    match s1 with
    | String "-" r => (true, r)
    | String "+" r => (false, r)
    | _ => (false, s1)
    end in
  match s2 with
  | String c _ =>
      if is_digit c then
        let '(m, rest) := scan_digits 0 s2 in
        Some (store_int (if neg then - m else m), rest)
      else None
  | EmptyString => None
  end.

(** A literal character of the format. *)
Definition expect (c : ascii) (s : string) : option string :=
  match s with
  | String c' r => if Ascii.eqb c c' then Some r else None
  | EmptyString => None
  end.

(** The three locals [lod], [x], [y] are not initialised and the count
    that [sscanf] returns is not looked at: a conversion that fails leaves
    its local, and those after it, with the contents [init]. *)
Definition sscanf_key (uri : string) (init : Z * Z * Z) : Z * Z * Z :=
  let '(l0, x0, y0) := init in
  match scan_int uri with
  | None => (l0, x0, y0)
  | Some (l, s1) =>
      match expect "_" s1 with
      | None => (l, x0, y0)
      | Some s2 =>
          match scan_int s2 with
          | None => (l, x0, y0)
          | Some (x, s3) =>
              match expect "_" s3 with
              | None => (l, x, y0)
              | Some s4 =>
                  match scan_int s4 with
                  | None => (l, x, y0)
                  | Some (y, _) => (l, x, y)
                  end
              end
          end
      end
  end.

(** *** File extensions, as osgDB computes them *)

Fixpoint all_chars (p : ascii -> bool) (s : string) : bool :=
  match s with
  | EmptyString => true
  | String c r => p c && all_chars p r
  end.

Fixpoint find_last_of (p : ascii -> bool) (s : string) : option nat :=
  match s with
  | EmptyString => None
  | String c r =>
      match find_last_of p r with
      | Some i => Some (S i)
      | None => if p c then Some O else None
      end
  end.

Fixpoint drop (n : nat) (s : string) : string :=
  match n, s with
  | O, _ => s
  | S m, String _ r => drop m r
  | S _, EmptyString => EmptyString
  end.

Definition is_dot (c : ascii) : bool := Ascii.eqb c ".".

Definition is_separator (c : ascii) : bool :=
  Ascii.eqb c "/" || Ascii.eqb c "\".

(** The characters of a tile's coordinates: digits and the underscore. *)
Definition is_field_char (c : ascii) : bool :=
  is_digit c || Ascii.eqb c "_".

Definition getFileExtension (fileName : string) : string :=
  match find_last_of is_dot fileName with
  | None => ""
  | Some dot =>
      match find_last_of is_separator fileName with
      | Some slash =>
          if (dot <? slash)%nat then "" else drop (S dot) fileName
      | None => drop (S dot) fileName
      end
  end.

Definition tolower (c : ascii) : ascii :=
  if (65 <=? code c) && (code c <=? 90)
  then ascii_of_nat (nat_of_ascii c + 32) else c.

Fixpoint convertToLowerCase (s : string) : string :=
  match s with
  | EmptyString => EmptyString
  | String c r => String (tolower c) (convertToLowerCase r)
  end.

Definition getLowerCaseFileExtension (fileName : string) : string :=
  convertToLowerCase (getFileExtension fileName).

(** The loader supports the one extension registered by its constructor. *)
Definition acceptsExtension (ext : string) : bool :=
  String.eqb (convertToLowerCase ext) (convertToLowerCase pseudo_extension).

Close Scope string_scope.

(** ** The scene graph, as far as the pager builds it *)

(** A spatial reference system, by reference. *)
Definition SRS : Type := nat.

Record GeoExtent : Type := mkExtent {
  ext_srs : SRS;
  xMin : R;
  yMin : R;
  width : R;
  height : R
}.

(** What [createNode] builds for a tile: opaque to the pager except for the
    bounding sphere that [getBound] reports. *)
Record Content : Type := mkContent {
  content_id : nat;
  content_bound : BoundingSphere
}.

(** The pager object.  [_progressMaster] is the address of the progress
    master that the constructor installs. *)
Record SimplePager : Type := mkPager {
  _name : string;
  _profile : Profile;
  _rangeFactor : R;
  _additive : bool;
  _minLevel : Z;
  _maxLevel : Z;
  _progressMaster : nat;
  _fileLocationCallback : option nat
}.

Definition this_name : string := "osgEarth::Util::SimplerPager::this"%string.

(** The constructor [SimplePager::SimplePager(profile)]; [master] is the
    address of the fresh [ProgressMaster]. *)
Definition SimplePager_new (profile : Profile) (master : nat) : SimplePager :=
  {| _name := this_name;
     _profile := profile;
     _rangeFactor := 6%R;
     _additive := false;
     _minLevel := 0;
     _maxLevel := 30;
     _progressMaster := master;
     _fileLocationCallback := None |}.

Definition getProfile (p : SimplePager) : Profile := _profile p.

(** The objects that an [osg::UserDataContainer] may hold. *)
Inductive Object : Type :=
| ObjPager (p : SimplePager)
| ObjUpdater (u : ProgressUpdater)
| ObjOther (name : string).

Definition getName (o : Object) : string :=
  match o with
  | ObjPager p => _name p
  | ObjUpdater u => pu_name u
  | ObjOther n => n
  end.

(** [getUserObject(name)]: the first object of that name, or null. *)
Fixpoint getUserObject (udc : list Object) (name : string) : option Object :=
  match udc with
  | [] => None
  | o :: rest =>
      if String.eqb (getName o) name then Some o else getUserObject rest name
  end.

(** [dynamic_cast<SimplePager*>] and [dynamic_cast<ProgressUpdater*>]. *)
Definition as_pager (o : option Object) : option SimplePager :=
  match o with
  | Some (ObjPager p) => Some p
  | _ => None
  end.

Definition as_updater (o : option Object) : option ProgressUpdater :=
  match o with
  | Some (ObjUpdater u) => Some u
  | _ => None
  end.

Record Options : Type := mkOptions {
  _userDataContainer : option (list Object);
  opt_fileLocationCallback : option nat
}.

Definition Options_new : Options :=
  {| _userDataContainer := None; opt_fileLocationCallback := None |}.

(** [getOrCreateUserDataContainer()->addUserObject(obj)], for an object
    that the container does not hold yet. *)
Definition addUserObject (o : Options) (obj : Object) : Options :=
  {| _userDataContainer :=
       Some (match _userDataContainer o with
             | Some l => l ++ [obj]
             | None => [obj]
             end);
     opt_fileLocationCallback := opt_fileLocationCallback o |}.

Definition setFileLocationCallback (o : Options) (cb : nat) : Options :=
  {| _userDataContainer := _userDataContainer o;
     opt_fileLocationCallback := Some cb |}.

(** A visibility range [(min, max)]: the slot is shown at the distances
    [d] with [min <= d < max]. *)
Definition Range : Type := (R * R)%type.

Definition in_range (r : Range) (d : R) : Prop := (fst r <= d < snd r)%R.

(** [osg::PagedLOD], over the type of its children. *)
Record PagedLOD (N : Type) : Type := mkPagedLOD {
  _center : Vec3;
  _radius : R;
  _children : list N;
  _rangeList : list Range;
  _fileNames : list string;
  _cullCallbacks : list ProgressUpdater;
  _databaseOptions : option Options
}.

Arguments mkPagedLOD {N}.
Arguments _center {N}.
Arguments _radius {N}.
Arguments _children {N}.
Arguments _rangeList {N}.
Arguments _fileNames {N}.
Arguments _cullCallbacks {N}.
Arguments _databaseOptions {N}.

#[warnings="-register-all"]
Inductive Node : Type :=
| N_Content (c : Content)
| N_Group (children : list Node)
| N_PagedLOD (plod : PagedLOD Node).

(** *** The operations of [osg::LOD] and [osg::PagedLOD] that the pager uses *)

Section Vectors.
Context {A : Type}.

(** [std::vector::resize(n, fill)] *)
Definition resize (l : list A) (n : nat) (fill : A) : list A :=
  firstn n l ++ repeat fill (n - List.length l).

(** [v[i] = a], for [i] within the vector *)
Fixpoint assign (l : list A) (i : nat) (a : A) : list A :=
  match l, i with
  | [], _ => []
  | _ :: t, O => a :: t
  | h :: t, S j => h :: assign t j a
  end.

Definition expandTo (l : list A) (n : nat) (fill : A) : list A :=
  if (List.length l <? n)%nat then resize l n fill else l.
End Vectors.

Section PagedLODOps.
Context {N : Type}.

Definition PagedLOD_new : PagedLOD N :=
  mkPagedLOD (mkVec3 0 0 0) (-1)%R [] [] [] [] None.

Definition setCenter (p : PagedLOD N) (c : Vec3) : PagedLOD N :=
  mkPagedLOD c (_radius p) (_children p) (_rangeList p) (_fileNames p)
    (_cullCallbacks p) (_databaseOptions p).

Definition setRadius (p : PagedLOD N) (r : R) : PagedLOD N :=
  mkPagedLOD (_center p) r (_children p) (_rangeList p) (_fileNames p)
    (_cullCallbacks p) (_databaseOptions p).

(** [PagedLOD::addChild(child)]: the range list and the per-range data
    grow with the children; a new range is the empty range at the end of
    the last one. *)
Definition addChild (p : PagedLOD N) (child : N) : PagedLOD N :=
  let children := _children p ++ [child] in
  let maxRange := match rev (_rangeList p) with
                  | r :: _ => snd r
                  | [] => 0%R
                  end in
  mkPagedLOD (_center p) (_radius p) children
    (expandTo (_rangeList p) (List.length children) (maxRange, maxRange))
    (expandTo (_fileNames p) (List.length children) EmptyString)
    (_cullCallbacks p) (_databaseOptions p).

(** [PagedLOD::setFileName(childNo, name)] *)
Definition setFileName (p : PagedLOD N) (childNo : nat) (name : string)
  : PagedLOD N :=
  mkPagedLOD (_center p) (_radius p) (_children p) (_rangeList p)
    (assign (expandTo (_fileNames p) (S childNo) EmptyString) childNo name)
    (_cullCallbacks p) (_databaseOptions p).

(** [LOD::setRange(childNo, min, max)] *)
Definition setRange (p : PagedLOD N) (childNo : nat) (min max : R)
  : PagedLOD N :=
  mkPagedLOD (_center p) (_radius p) (_children p)
    (assign (expandTo (_rangeList p) (S childNo) (min, min)) childNo
       (min, max))
    (_fileNames p) (_cullCallbacks p) (_databaseOptions p).

Definition addCullCallback (p : PagedLOD N) (u : ProgressUpdater)
  : PagedLOD N :=
  mkPagedLOD (_center p) (_radius p) (_children p) (_rangeList p)
    (_fileNames p) (_cullCallbacks p ++ [u]) (_databaseOptions p).

Definition setDatabaseOptions (p : PagedLOD N) (o : Options) : PagedLOD N :=
  mkPagedLOD (_center p) (_radius p) (_children p) (_rangeList p)
    (_fileNames p) (_cullCallbacks p) (Some o).

(** The file name of a slot; a slot without one has the empty name. *)
Definition getFileName (p : PagedLOD N) (childNo : nat) : string :=
  nth childNo (_fileNames p) EmptyString.
End PagedLODOps.

(** ** Results of the pseudo loader *)

Inductive ReadStatus : Type :=
| FILE_NOT_HANDLED
| FILE_LOADED
| ERROR_IN_READING_FILE.

Record ReadResult : Type := mkReadResult {
  status : ReadStatus;
  object : option Node
}.

(** The converting constructors of [ReadResult]: from a status, and from
    a pointer to the object read. *)
Definition ReadResult_of_status (s : ReadStatus) : ReadResult :=
  mkReadResult s None.

Definition ReadResult_of_node (n : option Node) : ReadResult :=
  mkReadResult FILE_LOADED n.

Inductive Outcome (A : Type) : Type :=
| Returned (a : A)
| NullDereference.

Arguments Returned {A}.
Arguments NullDereference {A}.

(** ** The log of builder calls *)

Definition Log : Type := list TileKey.

Definition M (A : Type) : Type := Log -> A * Log.

Definition ret {A : Type} (a : A) : M A := fun log => (a, log).

Definition bind {A B : Type} (m : M A) (f : A -> M B) : M B :=
  fun log => let '(a, log') := m log in f a log'.

Notation "x <- m ;; k" := (bind m (fun x => k))
  (at level 61, m at next level, right associativity).

Definition run {A : Type} (m : M A) : A * Log := m [].

(** ** Concrete instances, for the examples *)

(** Unit extents and a projection that sends every point to the origin:
    every estimate of [getBounds] is the sphere of radius 0 around it. *)
Definition flat_extent (k : TileKey) : GeoExtent :=
  mkExtent O 0%R 0%R 1%R 1%R.

Definition origin_toWorld (srs : SRS) (x y : R) : Vec3 := mkVec3 0 0 0.

(** A builder whose content has radius 2, and one that builds nothing. *)
Definition ball_createNode (this : SimplePager) (key : TileKey)
    (progress : option MyProgressCallback) : option Content :=
  Some (mkContent O (mkSphere (mkVec3 0 0 0) 2)).

Definition empty_createNode (this : SimplePager) (key : TileKey)
    (progress : option MyProgressCallback) : option Content :=
  None.

(** The pager as its constructor leaves it, and three reconfigurations. *)
Definition default_pager : SimplePager := SimplePager_new O O.

Definition shallow_pager : SimplePager :=
  mkPager this_name O 6%R false 0 1 O None.

Definition deep_pager : SimplePager :=
  mkPager this_name O 6%R false 5 30 O None.

Definition inverted_pager : SimplePager :=
  mkPager this_name O (-1)%R false 0 30 O None.

Definition additive_pager : SimplePager :=
  mkPager this_name O 6%R true 0 30 O None.

Definition renamed_pager : SimplePager :=
  mkPager "terrain"%string O 6%R false 0 30 O None.

(** The store in which every address holds a master at a given frame, and
    an updater whose request was last seen at frame 5. *)
Definition store_at (frame : Z) : MasterStore :=
  fun _ => Some (mkProgressMaster frame).

Definition updater_5 : ProgressUpdater :=
  mkUpdater ProgressUpdater_name (mkProgress 5 (Some O)).

Definition key_0_0_0 : TileKey := mkTileKey 0 0 0 O.
Definition key_1_2_3 : TileKey := mkTileKey 1 2 3 O.

(** ** The pager *)

Section Pager.

(** The virtual [createNode(key, progress)] of the pager at hand.  The
    base class draws the estimated sphere of the tile; subclasses override
    it, and may return null. *)
Variable createNode :
  SimplePager -> TileKey -> option MyProgressCallback -> option Content.

(** [TileKey::getExtent], and the composition of
    [GeoPoint::transform] to WGS84 with [GeoPoint::toWorld] for a point
    of altitude 0 in a given reference system. *)
Variable getExtent : TileKey -> GeoExtent.
Variable toWorld : SRS -> R -> R -> Vec3.

(** [Profile::getRootKeys] *)
Variable getRootKeys : Profile -> list TileKey.

(** The contents of memory that the code reads before writing it: the
    member [_lastFrame] of a fresh progress callback, and the locals of
    [readNode]. *)
Variable stale_frame : Z.
Variable stale_locals : Z * Z * Z.

Definition call_createNode (this : SimplePager) (key : TileKey)
    (progress : option MyProgressCallback) : M (option Content) :=
  fun log => (createNode this key progress, log ++ [key]).

(** *** [SimplePager::getBounds] *)

Definition samples : Z := 6.

(** The values that [c] and [r] take: 0, ..., [samples]. *)
Definition sample_steps : list Z :=
  map Z.of_nat (seq 0 (Z.to_nat (samples + 1))).

Definition getBounds (key : TileKey) : BoundingSphere :=
  let extent := getExtent key in
  let xSample := (width extent / IZR samples)%R in
  let ySample := (height extent / IZR samples)%R in
  fold_left
    (fun bs c =>
       let x := (xMin extent + IZR c * xSample)%R in
       fold_left
         (fun bs r =>
            let y := (yMin extent + IZR r * ySample)%R in
            let world := toWorld (ext_srs extent) x y in
            expandBy bs world)
         sample_steps bs)
    sample_steps BoundingSphere_init.

(** The world points that the two loops hand to [expandBy], in the order
    of the calls. *)
Definition sample_points (key : TileKey) : list Vec3 :=
  let extent := getExtent key in
  flat_map
    (fun c =>
       map (fun r =>
              toWorld (ext_srs extent)
                (xMin extent + IZR c * (width extent / IZR samples))%R
                (yMin extent + IZR r * (height extent / IZR samples))%R)
         sample_steps)
    sample_steps.

(** *** [SimplePager::createPagedNode] *)

(** The outcome of the content step: the node built, if any, the bounds
    and the flag [hasChildren] after it. *)
Definition build_content (this : SimplePager) (key : TileKey)
    (progress : option MyProgressCallback)
    (tileBounds : BoundingSphere) (hasChildren : bool)
  : M (option Content * BoundingSphere * bool) :=
  if _minLevel this <=? lod key then
    node <- call_createNode this key progress ;;
    match node with
    | Some c => ret (Some c, content_bound c, hasChildren)
    | None => ret (None, tileBounds, false)
    end
  else ret (None, tileBounds, hasChildren).

(** The options handed to the pseudo loader: the pager and the progress
    updater as user objects, and the file location callback if the pager
    has one. *)
Definition loader_options (this : SimplePager) (u : ProgressUpdater)
  : Options :=
  let options := addUserObject (addUserObject Options_new (ObjPager this))
                   (ObjUpdater u) in
  match _fileLocationCallback this with
  | Some cb => setFileLocationCallback options cb
  | None => options
  end.

Definition createPagedNode (this : SimplePager) (key : TileKey)
    (progress : option MyProgressCallback) : M (option Node) :=
  let tileBounds0 := getBounds key in
  let tileRadius0 := radius tileBounds0 in
  let hasChildren0 := lod key <? _maxLevel this in
  built <- build_content this key progress tileBounds0 hasChildren0 ;;
  let '(content, tileBounds, hasChildren) := built in
  let node := match content with
              | Some c => N_Content c
              | None => N_Group []
              end in
  let tileRadius := std_max (radius tileBounds) tileRadius0 in
  let plod := setRadius (setCenter PagedLOD_new (center tileBounds))
                tileRadius in
  let plod := addChild plod node in
  let plod :=
    if hasChildren then
      let uri := tile_uri key in
      let plod := setFileName plod 1 uri in
      let progressUpdater :=
        ProgressUpdater_new (Some (_progressMaster this)) stale_frame in
      let plod := addCullCallback plod progressUpdater in
      let plod :=
        setDatabaseOptions plod (loader_options this progressUpdater) in
      let minRange := (tileRadius * _rangeFactor this)%R in
      if negb (_additive this) then
        setRange (setRange plod 0 minRange FLT_MAX) 1 0 minRange
      else
        setRange (setRange plod 0 0 FLT_MAX) 1 0 minRange
    else
      setRange plod 0 0 FLT_MAX in
  ret (Some (N_PagedLOD plod)).

(** *** [SimplePager::loadKey] *)

(** The loop of [loadKey], over the function that makes the paged node
    of a child key. *)
Definition load_children (mk : TileKey -> M (option Node)) (key : TileKey)
  : M (list Node) :=
  fold_left
    (fun (acc : M (list Node)) (i : Z) =>
       group <- acc ;;
       plod <- mk (createChildKey key i) ;;
       match plod with
       | Some n => ret (group ++ [n])
       | None => ret group
       end)
    [0; 1; 2; 3] (ret []).

Definition loadKey_with (mk : TileKey -> M (option Node)) (key : TileKey)
  : M (option Node) :=
  group <- load_children mk key ;;
  if (0 <? List.length group)%nat
then ret (Some (N_Group group)) else ret None.

Definition loadKey (this : SimplePager) (key : TileKey)
    (progress : option MyProgressCallback) : M (option Node) :=
  loadKey_with (fun childKey => createPagedNode this childKey progress) key.

Definition child_keys (key : TileKey) : list TileKey :=
  map (createChildKey key) [0; 1; 2; 3].

(** The children of a key as the spec words them: the canonical children
    0..3 in that order, each made in turn, the absent ones left out. *)
Fixpoint spec_collect (mk : TileKey -> M (option Node)) (keys : list TileKey)
  : M (list Node) :=
  match keys with
  | [] => ret []
  | k :: rest =>
      plod <- mk k ;;
      group <- spec_collect mk rest ;;
      ret (match plod with Some n => n :: group | None => group end)
  end.

(** *** [SimplePager::buildRootNode] *)

Definition buildRootNode (this : SimplePager) : M Node :=
  root <- fold_left
            (fun (acc : M (list Node)) (key : TileKey) =>
               root <- acc ;;
               node <- createPagedNode this key None ;;
               match node with
               | Some n => ret (root ++ [n])
               | None => ret root
               end)
            (getRootKeys (_profile this)) (ret []) ;;
  ret (N_Group root).

(** *** [SimplePagerPseudoLoader::readNode] *)

(** The options let the loader recover [pager] and [progress]. *)
Definition valid_context (o : Options) (pager : SimplePager)
    (progress : option MyProgressCallback) : Prop :=
  exists udc,
    _userDataContainer o = Some udc /\
    as_pager (getUserObject udc this_name) = Some pager /\
    option_map _progress
      (as_updater (getUserObject udc ProgressUpdater_name)) = progress.

Definition readNode (uri : string) (options : option Options)
  : M (Outcome ReadResult) :=
  if negb (acceptsExtension (getLowerCaseFileExtension uri)) then
    ret (Returned (ReadResult_of_status FILE_NOT_HANDLED))
  else
    let '(l, x, y) := sscanf_key uri stale_locals in
    match options with
    | None => ret NullDereference
    | Some o =>
        match _userDataContainer o with
        | None => ret NullDereference
        | Some udc =>
            match as_pager (getUserObject udc this_name) with
            | Some pager =>
                let progressUpdater :=
                  as_updater (getUserObject udc ProgressUpdater_name) in
                let progress := option_map _progress progressUpdater in
                n <- loadKey pager (mkTileKey l x y (getProfile pager))
                       progress ;;
                ret (Returned (ReadResult_of_node n))
            | None =>
                ret (Returned (ReadResult_of_status ERROR_IN_READING_FILE))
            end
        end
    end.

Arguments FLT_MAX : simpl never.
Arguments std_max : simpl never.

(** * Properties *)

(** ** The cancellation test *)

Lemma wrap32_range z : 0 <= wrap32 z < 2 ^ 32.
Proof. unfold wrap32. apply Z.mod_pos_bound. lia. Qed.

Lemma wrap32_small z : is_unsigned z -> wrap32 z = z.
Proof. unfold wrap32, is_unsigned. intros H. apply Z.mod_small, H. Qed.

Lemma valid_lock st p : valid st p = true <-> exists m, lock st p = Some m.
Proof.
  unfold valid. destruct (lock st p) as [m|]; split; intros H; try easy.
  - exists m; reflexivity.
  - destruct H as [m H]; discriminate.
Qed.

(** C1: [isCanceled] answers true exactly when the progress master is no
    longer reachable or the unsigned difference between the master's frame
    and the frame last seen exceeds 1; in every other state it answers
    false. *)
Theorem isCanceled_spec (st : MasterStore) (h : MyProgressCallback) :
  (isCanceled st h = true <->
     valid st (_master h) = false \/
     exists m, lock st (_master h) = Some m /\
               1 < wrap32 (_frame m - _lastFrame h)) /\
  (isCanceled st h = false <->
     exists m, lock st (_master h) = Some m /\
               wrap32 (_frame m - _lastFrame h) <= 1).
Proof.
  unfold isCanceled, frame_lag, valid.
  destruct (lock st (_master h)) as [m|]; simpl.
  - split; split.
    + intros H. right. exists m. split; [reflexivity | apply Z.ltb_lt, H].
    + intros [H | [m' [E H]]]; [discriminate|].
      injection E as <-. apply Z.ltb_lt, H.
    + intros H. exists m. split; [reflexivity | apply Z.ltb_ge, H].
    + intros [m' [E H]]. injection E as <-. apply Z.ltb_ge, H.
  - split; split; try easy.
    + intros _. left; reflexivity.
    + intros [m [E _]]; discriminate.
Qed.

(** A request that was touched in the frame the master is in, or in the
    one before, is not canceled, also across the wrap of the counter. *)
Lemma isCanceled_fresh st h m :
  lock st (_master h) = Some m ->
  is_unsigned (_lastFrame h) ->
  _frame m = _lastFrame h \/ _frame m = wrap32 (_lastFrame h + 1) ->
  isCanceled st h = false.
Proof.
  intros Hm Hl Hf. unfold isCanceled, frame_lag, valid. rewrite Hm. simpl.
  apply Z.ltb_ge.
  unfold wrap32, is_unsigned in *. destruct Hf as [-> | ->].
  - rewrite Z.sub_diag. rewrite Z.mod_0_l; lia.
  - rewrite Zminus_mod_idemp_l.
    replace (_lastFrame h + 1 - _lastFrame h) with 1 by lia.
    rewrite Z.mod_small; lia.
Qed.

Example isCanceled_wraps :
  isCanceled (fun _ => Some (mkProgressMaster 0))
    (mkProgress (2 ^ 32 - 1) (Some O)) = false /\
  isCanceled (fun _ => Some (mkProgressMaster 7)) (mkProgress 5 (Some O))
    = true /\
  isCanceled (fun _ => Some (mkProgressMaster 5)) (mkProgress 6 (Some O))
    = true /\
  isCanceled (fun _ => None) (mkProgress 5 (Some O)) = true.
Proof. repeat split; reflexivity. Qed.

(** ** Bounding spheres *)

Open Scope R_scope.










Lemma vsub_self v : vsub v v = mkVec3 0 0 0.
Proof. unfold vsub. f_equal; ring. Qed.

Lemma vlength_zero : vlength (mkVec3 0 0 0) = 0.
Proof.
  unfold vlength, length2; simpl.
  replace (0 * 0 + 0 * 0 + 0 * 0) with 0 by ring. apply sqrt_0.
Qed.

Lemma sphere_valid_true bs : sphere_valid bs = true <-> 0 <= radius bs.
Proof.
  unfold sphere_valid.
  destruct (Rle_dec 0 (radius bs)); split; intros; try easy.
Qed.

Lemma expandBy_valid bs v : sphere_valid (expandBy bs v) = true.
Proof.
  unfold expandBy. destruct (sphere_valid bs) eqn:Hv.
  - apply sphere_valid_true in Hv.
    destruct (Rlt_dec (radius bs) (vlength (vsub v (center bs)))); simpl.
    + apply sphere_valid_true; simpl. lra.
    + apply sphere_valid_true; assumption.
  - apply sphere_valid_true; simpl. lra.
Qed.





Lemma fold_expandBy_valid pts : forall bs,
  pts <> [] \/ sphere_valid bs = true ->
  sphere_valid (fold_left expandBy pts bs) = true.
Proof.
  induction pts as [|v pts IH]; intros bs H; simpl.
  - destruct H as [H | H]; [contradiction | assumption].
  - apply IH. right. apply expandBy_valid.
Qed.

Close Scope R_scope.

(** The nested loops of [getBounds] visit the points of [sample_points],
    in order. *)
Lemma nested_fold {A B C : Type} (f : A -> C -> A) (g : B -> B -> C)
    (inner : list B) (outer : list B) : forall a,
  fold_left (fun acc c => fold_left (fun acc r => f acc (g c r)) inner acc)
    outer a
  = fold_left f (flat_map (fun c => map (g c) inner) outer) a.
Proof.
  induction outer as [|c outer IH]; intros a; simpl; [reflexivity|].
  rewrite fold_left_app, IH. f_equal.
  clear. revert a. induction inner as [|r inner IH]; intros a; simpl;
    [reflexivity | apply IH].
Qed.

Lemma getBounds_fold key :
  getBounds key = fold_left expandBy (sample_points key) BoundingSphere_init.
Proof.
  unfold getBounds, sample_points.
  exact (nested_fold expandBy
           (fun c r =>
              toWorld (ext_srs (getExtent key))
                (xMin (getExtent key)
                 + IZR c * (width (getExtent key) / IZR samples))%R
                (yMin (getExtent key)
                 + IZR r * (height (getExtent key) / IZR samples))%R)
           sample_steps sample_steps BoundingSphere_init).
Qed.


Lemma sample_points_length key : List.length (sample_points key) = 49%nat.
Proof. reflexivity. Qed.

Lemma getBounds_radius_nonneg key : (0 <= radius (getBounds key))%R.
Proof.
  apply sphere_valid_true. rewrite getBounds_fold.
  apply fold_expandBy_valid. left. intros E.
  apply (f_equal (@List.length Vec3)) in E.
  rewrite sample_points_length in E. discriminate.
Qed.


(** ** The paged node of a key *)

Ltac unfold_paged :=
  unfold createPagedNode, build_content, call_createNode, bind, ret.

(** C3: at or beyond the maximum level the paged node has one slot, its
    content, visible over the whole range from 0 to [FLT_MAX]; no slot has
    a file name, and neither loader options nor a progress updater are
    installed: no load of children is registered. *)
Theorem max_level_leaf this key progress log :
  _maxLevel this <= lod key ->
  exists plod log',
    createPagedNode this key progress log = (Some (N_PagedLOD plod), log') /\
    List.length (_children plod) = 1%nat /\
    _rangeList plod = [(0%R, FLT_MAX)] /\
    _fileNames plod = [EmptyString] /\
    (forall childNo, getFileName plod childNo = EmptyString) /\
    _cullCallbacks plod = [] /\
    _databaseOptions plod = None.
Proof.
  intros Hmax. unfold_paged.
  assert (E : (lod key <? _maxLevel this) = false) by (apply Z.ltb_ge, Hmax).
  rewrite E.
  destruct (_minLevel this <=? lod key);
    [destruct (createNode this key progress)|];
    eexists; eexists; (split; [reflexivity|]); simpl;
    repeat split; intros [|[|n]]; reflexivity.
Qed.

(** [createPagedNode] always hands back a paged LOD. *)
Lemma createPagedNode_some this key progress log :
  exists plod log',
    createPagedNode this key progress log = (Some (N_PagedLOD plod), log').
Proof.
  unfold_paged.
  destruct (_minLevel this <=? lod key);
    [destruct (createNode this key progress)|];
    eexists; eexists; reflexivity.
Qed.

(** From the minimum level on, the builder is called once, with the key. *)
Lemma createPagedNode_log this key progress log :
  snd (createPagedNode this key progress log)
  = if _minLevel this <=? lod key then log ++ [key] else log.
Proof.
  unfold_paged.
  destruct (_minLevel this <=? lod key);
    [destruct (createNode this key progress)|]; reflexivity.
Qed.

(** C4: below the minimum level the builder is not called (the log of its
    calls is unchanged) and slot 0 holds an empty group; if the level is
    also below the maximum level, slot 1 carries the file name of the key
    and the loader's options and progress updater are installed. *)
Theorem below_min_level this key progress log :
  lod key < _minLevel this ->
  exists plod,
    createPagedNode this key progress log = (Some (N_PagedLOD plod), log) /\
    _children plod = [N_Group []] /\
    (lod key < _maxLevel this ->
       let updater :=
         ProgressUpdater_new (Some (_progressMaster this)) stale_frame in
       getFileName plod 1 = tile_uri key /\
       _cullCallbacks plod = [updater] /\
       _databaseOptions plod = Some (loader_options this updater)).
Proof.
  intros Hmin. unfold_paged.
  assert (E : (_minLevel this <=? lod key) = false) by (apply Z.leb_gt, Hmin).
  rewrite E.
  destruct (lod key <? _maxLevel this) eqn:Hmax.
  - destruct (_additive this); eexists; (split; [reflexivity|]);
      simpl; repeat split.
  - apply Z.ltb_ge in Hmax.
    eexists; (split; [reflexivity|]); simpl; split; [reflexivity|]. lia.
Qed.

(** C2: in replace mode a node with children shows slot 0 from
    [minRange] up to [FLT_MAX] and slot 1 from 0 up to [minRange], where
    [minRange] is the node's radius times the range factor; every distance
    from 0 up to [FLT_MAX] lies in exactly one of the two ranges. *)
Theorem replace_mode_ranges this key progress log :
  lod key < _maxLevel this ->
  lod key < _minLevel this \/ createNode this key progress <> None ->
  _additive this = false ->
  exists plod log',
    createPagedNode this key progress log = (Some (N_PagedLOD plod), log') /\
    let minRange := (_radius plod * _rangeFactor this)%R in
    _rangeList plod = [(minRange, FLT_MAX); (0%R, minRange)] /\
    getFileName plod 1 = tile_uri key /\
    forall d, (0 <= d < FLT_MAX)%R ->
      (in_range (minRange, FLT_MAX) d /\ ~ in_range (0%R, minRange) d) \/
      (~ in_range (minRange, FLT_MAX) d /\ in_range (0%R, minRange) d).
Proof.
  intros Hmax Hkids Hrep. unfold_paged.
  assert (E : (lod key <? _maxLevel this) = true) by (apply Z.ltb_lt, Hmax).
  rewrite E, Hrep.
  assert (Hpart : forall m d, (0 <= d < FLT_MAX)%R ->
            (in_range (m, FLT_MAX) d /\ ~ in_range (0%R, m) d) \/
            (~ in_range (m, FLT_MAX) d /\ in_range (0%R, m) d)).
  { intros m d Hd. unfold in_range; simpl.
    destruct (Rle_dec m d); [left | right]; lra. }
  destruct (_minLevel this <=? lod key) eqn:Hmin.
  - destruct (createNode this key progress) as [c|] eqn:Hc.
    + eexists; eexists; (split; [reflexivity|]); simpl.
      repeat split; apply Hpart; assumption.
    + destruct Hkids as [Hlt | Hne]; [|contradiction].
      apply Z.leb_le in Hmin. lia.
  - eexists; eexists; (split; [reflexivity|]); simpl.
    repeat split; apply Hpart; assumption.
Qed.

(** Additive mode: slot 0 stays visible at every distance. *)
Lemma additive_mode_ranges this key progress log :
  lod key < _maxLevel this ->
  lod key < _minLevel this \/ createNode this key progress <> None ->
  _additive this = true ->
  exists plod log',
    createPagedNode this key progress log = (Some (N_PagedLOD plod), log') /\
    _rangeList plod =
      [(0%R, FLT_MAX); (0%R, (_radius plod * _rangeFactor this)%R)].
Proof.
  intros Hmax Hkids Hadd. unfold_paged.
  assert (E : (lod key <? _maxLevel this) = true) by (apply Z.ltb_lt, Hmax).
  rewrite E, Hadd.
  destruct (_minLevel this <=? lod key) eqn:Hmin;
    [destruct (createNode this key progress) as [c|] eqn:Hc|];
    try (eexists; eexists; split; reflexivity).
  destruct Hkids as [Hlt | Hne]; [|contradiction].
  apply Z.leb_le in Hmin. lia.
Qed.


Lemma std_max_ge_r a b : (b <= std_max a b)%R.
Proof. unfold std_max. destruct (Rlt_dec a b); lra. Qed.


(** ** Loading the children of a key *)

(** The loop of [loadKey] makes the paged nodes of the canonical children
    in the order 0..3 and keeps those that are present. *)
Lemma load_children_spec mk key log :
  load_children mk key log = spec_collect mk (child_keys key) log.
Proof.
  unfold load_children, child_keys. simpl. unfold bind, ret.
  destruct (mk (createChildKey key 0) log) as [[n0|] l0];
    destruct (mk (createChildKey key 1) l0) as [[n1|] l1];
    destruct (mk (createChildKey key 2) l1) as [[n2|] l2];
    destruct (mk (createChildKey key 3) l2) as [[n3|] l3]; reflexivity.
Qed.

Lemma spec_collect_length mk keys : forall log,
  (List.length (fst (spec_collect mk keys log)) <= List.length keys)%nat.
Proof.
  induction keys as [|k keys IH]; intros log; simpl; [lia|].
  unfold bind, ret. destruct (mk k log) as [plod l1].
  specialize (IH l1). destruct (spec_collect mk keys l1) as [group l2].
  simpl in *. destruct plod; simpl; lia.
Qed.

Lemma spec_collect_none mk keys :
  (forall k l, fst (mk k l) = None) ->
  forall log, fst (spec_collect mk keys log) = [].
Proof.
  intros Hnone. induction keys as [|k keys IH]; intros log; simpl;
    [reflexivity|].
  unfold bind, ret. specialize (Hnone k log).
  destruct (mk k log) as [plod l1]. simpl in Hnone. subst plod.
  specialize (IH l1). destruct (spec_collect mk keys l1) as [group l2].
  simpl in *. assumption.
Qed.

(** C9: whatever makes the paged node of a child, [loadKey] makes one for
    each of the canonical children 0, 1, 2, 3 of the key, in that order,
    and groups those that are present, at most 4; when none is present it
    returns the null pointer.  [SimplePager::loadKey] is this loop over
    [createPagedNode]. *)
Theorem loadKey_children this progress mk key log :
  child_keys key =
    [createChildKey key 0; createChildKey key 1;
     createChildKey key 2; createChildKey key 3] /\
  (exists group log',
     spec_collect mk (child_keys key) log = (group, log') /\
     (List.length group <= 4)%nat /\
     loadKey_with mk key log =
       (match group with [] => None | _ => Some (N_Group group) end, log')) /\
  ((forall k l, fst (mk k l) = None) ->
   fst (loadKey_with mk key log) = None) /\
  loadKey this key progress =
    loadKey_with (fun childKey => createPagedNode this childKey progress) key.
Proof.
  split; [reflexivity|].
  assert (Hrun : forall group log',
            spec_collect mk (child_keys key) log = (group, log') ->
            loadKey_with mk key log =
              (match group with [] => None | _ => Some (N_Group group) end,
               log')).
  { intros group log' E. unfold loadKey_with, bind.
    rewrite load_children_spec, E. destruct group; reflexivity. }
  split; [|split; [|reflexivity]].
  - destruct (spec_collect mk (child_keys key) log) as [group log'] eqn:E.
    exists group, log'. split; [reflexivity|]. split.
    + generalize (spec_collect_length mk (child_keys key) log).
      rewrite E. simpl. lia.
    + apply Hrun, eq_refl.
  - intros Hnone.
    generalize (spec_collect_none mk (child_keys key) Hnone log).
    destruct (spec_collect mk (child_keys key) log) as [group log'] eqn:E.
    simpl. intros ->. rewrite (Hrun [] log' eq_refl). reflexivity.
Qed.

(** [loadKey] makes the paged nodes of the four children in turn and
    groups them. *)
Lemma loadKey_four this key progress log :
  exists p0 p1 p2 p3 l0 l1 l2 l3,
    createPagedNode this (createChildKey key 0) progress log
      = (Some (N_PagedLOD p0), l0) /\
    createPagedNode this (createChildKey key 1) progress l0
      = (Some (N_PagedLOD p1), l1) /\
    createPagedNode this (createChildKey key 2) progress l1
      = (Some (N_PagedLOD p2), l2) /\
    createPagedNode this (createChildKey key 3) progress l2
      = (Some (N_PagedLOD p3), l3) /\
    loadKey this key progress log =
      (Some (N_Group [N_PagedLOD p0; N_PagedLOD p1;
                      N_PagedLOD p2; N_PagedLOD p3]), l3).
Proof.
  destruct (createPagedNode_some this (createChildKey key 0) progress log)
    as [p0 [l0 E0]].
  destruct (createPagedNode_some this (createChildKey key 1) progress l0)
    as [p1 [l1 E1]].
  destruct (createPagedNode_some this (createChildKey key 2) progress l1)
    as [p2 [l2 E2]].
  destruct (createPagedNode_some this (createChildKey key 3) progress l2)
    as [p3 [l3 E3]].
  exists p0, p1, p2, p3, l0, l1, l2, l3. repeat (split; [assumption|]).
  unfold loadKey, loadKey_with. unfold bind at 1.
  rewrite load_children_spec. unfold child_keys. simpl. unfold bind, ret.
  rewrite E0, E1, E2, E3. reflexivity.
Qed.

(** C10: whatever the builder does, [createPagedNode] returns a paged
    LOD, never the null pointer, with its slot 0 filled and a range for
    every slot; so [loadKey] groups exactly 4 paged nodes, those of the
    children 0..3 made in turn, and never returns the null pointer. *)
Theorem createPagedNode_total this key progress log :
  (exists plod log',
     createPagedNode this key progress log = (Some (N_PagedLOD plod), log') /\
     List.length (_children plod) = 1%nat /\
     (1 <= List.length (_rangeList plod) <= 2)%nat /\
     List.length (_fileNames plod) = List.length (_rangeList plod)) /\
  (exists p0 p1 p2 p3 l0 l1 l2 l3,
     createPagedNode this (createChildKey key 0) progress log
       = (Some (N_PagedLOD p0), l0) /\
     createPagedNode this (createChildKey key 1) progress l0
       = (Some (N_PagedLOD p1), l1) /\
     createPagedNode this (createChildKey key 2) progress l1
       = (Some (N_PagedLOD p2), l2) /\
     createPagedNode this (createChildKey key 3) progress l2
       = (Some (N_PagedLOD p3), l3) /\
     loadKey this key progress log =
       (Some (N_Group [N_PagedLOD p0; N_PagedLOD p1;
                       N_PagedLOD p2; N_PagedLOD p3]), l3)) /\
  fst (loadKey this key progress log) <> None.
Proof.
  assert (Hload := loadKey_four this key progress log).
  split; [|split; [exact Hload|]].
  - unfold_paged.
    destruct (_minLevel this <=? lod key);
      [destruct (createNode this key progress)|];
      destruct (lod key <? _maxLevel this); try destruct (_additive this);
      eexists; eexists; (split; [reflexivity|]); simpl; repeat split; lia.
  - destruct Hload
      as (p0 & p1 & p2 & p3 & l0 & l1 & l2 & l3 & _ & _ & _ & _ & E).
    rewrite E. discriminate.
Qed.

(** ** File names: printing and scanning *)

Lemma digit_char_spec d :
  0 <= d < 10 ->
  is_digit (digit_char d) = true /\ digit_val (digit_char d) = d.
Proof.
  intros H.
  assert (E : d = 0 \/ d = 1 \/ d = 2 \/ d = 3 \/ d = 4 \/ d = 5 \/ d = 6
              \/ d = 7 \/ d = 8 \/ d = 9) by lia.
  repeat (destruct E as [-> | E]; [split; reflexivity|]).
  subst; split; reflexivity.
Qed.

Lemma mod10_range n : 0 <= n mod 10 < 10.
Proof. apply Z.mod_pos_bound. lia. Qed.

Lemma append_assoc (s1 s2 s3 : string) :
  ((s1 ++ s2) ++ s3 = s1 ++ (s2 ++ s3))%string.
Proof.
  induction s1 as [|c s1 IH]; simpl; [reflexivity|].
  rewrite IH. reflexivity.
Qed.

Lemma show_digits_app fuel : forall n acc,
  show_digits fuel n acc = (show_digits fuel n EmptyString ++ acc)%string.
Proof.
  induction fuel as [|f IH]; intros n acc; simpl; [reflexivity|].
  destruct (n <? 10); [reflexivity|].
  rewrite IH. rewrite (IH _ (String _ EmptyString)).
  rewrite append_assoc. reflexivity.
Qed.

Lemma show_digits_all fuel : forall n acc,
  all_chars is_digit acc = true ->
  all_chars is_digit (show_digits fuel n acc) = true.
Proof.
  induction fuel as [|f IH]; intros n acc Hacc; simpl.
  - rewrite (proj1 (digit_char_spec _ (mod10_range n))). assumption.
  - destruct (n <? 10).
    + simpl. rewrite (proj1 (digit_char_spec _ (mod10_range n))). assumption.
    + apply IH. simpl.
      rewrite (proj1 (digit_char_spec _ (mod10_range n))). assumption.
Qed.

Lemma show_digits_head fuel : forall n acc,
  exists c r, show_digits fuel n acc = String c r /\ is_digit c = true.
Proof.
  induction fuel as [|f IH]; intros n acc; simpl.
  - eexists; eexists; split; [reflexivity|].
    apply (digit_char_spec _ (mod10_range n)).
  - destruct (n <? 10); [|apply IH].
    eexists; eexists; split; [reflexivity|].
    apply (digit_char_spec _ (mod10_range n)).
Qed.

(** Scanning the digits printed for [n] multiplies the accumulator by a
    power of ten and adds [n]. *)
Lemma scan_show_digits fuel : forall n,
  0 <= n < 10 ^ Z.of_nat (S fuel) ->
  exists k, 0 <= k /\ forall a rest,
    scan_digits a (show_digits fuel n rest) = scan_digits (a * 10 ^ k + n) rest.
Proof.
  assert (Hone : forall n, 0 <= n < 10 -> forall a rest,
            scan_digits a (String (digit_char (n mod 10)) rest)
            = scan_digits (a * 10 ^ 1 + n) rest).
  { intros n Hn a rest. rewrite (Z.mod_small n 10) by lia. simpl scan_digits.
    destruct (digit_char_spec n Hn) as [-> ->]. f_equal. }
  induction fuel as [|f IH]; intros n Hn.
  - exists 1. split; [lia|]. intros a rest. simpl show_digits.
    apply Hone. simpl in Hn. lia.
  - simpl show_digits. destruct (n <? 10) eqn:Hlt.
    + exists 1. split; [lia|]. intros a rest. apply Hone.
      apply Z.ltb_lt in Hlt. lia.
    + apply Z.ltb_ge in Hlt.
      assert (Hdiv : 0 <= n / 10 < 10 ^ Z.of_nat (S f)).
      { split; [apply Z.div_pos; lia|].
        apply Z.div_lt_upper_bound; [lia|].
        replace (Z.of_nat (S (S f))) with (Z.of_nat (S f) + 1) in Hn by lia.
        rewrite Z.pow_add_r in Hn by lia. lia. }
      destruct (IH (n / 10) Hdiv) as [k [Hk Hscan]].
      exists (k + 1). split; [lia|]. intros a rest.
      rewrite Hscan. simpl scan_digits.
      destruct (digit_char_spec _ (mod10_range n)) as [-> ->].
      f_equal. rewrite Z.pow_add_r by lia.
      generalize (Z.div_mod n 10). lia.
Qed.

Lemma scan_digits_stop a c rest :
  is_digit c = false -> scan_digits a (String c rest) = (a, String c rest).
Proof. intros H. simpl. rewrite H. reflexivity. Qed.

Lemma store_int_unsigned n : is_unsigned n -> store_int n = n.
Proof.
  unfold store_int, is_unsigned. intros H.
  rewrite Z.min_r by lia. rewrite Z.max_r by lia.
  apply wrap32_small. exact H.
Qed.

(** A string that starts with a digit has neither white space nor a sign
    for "%d" to skip. *)
Lemma scan_int_digit c r :
  is_digit c = true ->
  scan_int (String c r) =
    let '(m, rest) := scan_digits 0 (String c r) in Some (store_int m, rest).
Proof.
  intros H. unfold scan_int.
  destruct c as [[] [] [] [] [] [] [] []]; vm_compute in H;
    try discriminate H; simpl skip_space; cbv iota beta; rewrite ?H;
    reflexivity.
Qed.

(** "%d" reads back the number that was printed, up to the next
    character that is not a digit. *)
Lemma scan_int_show n c rest :
  is_unsigned n -> is_digit c = false ->
  scan_int (show_unsigned n ++ String c rest)%string
  = Some (n, String c rest).
Proof.
  intros Hn Hc. unfold show_unsigned. rewrite <- show_digits_app.
  destruct (show_digits_head 9 n (String c rest)) as [d [r [E Hd]]].
  rewrite E, (scan_int_digit d r Hd), <- E.
  assert (Hlt : 0 <= n < 10 ^ Z.of_nat 10).
  { unfold is_unsigned in Hn. simpl. lia. }
  destruct (scan_show_digits 9 n Hlt) as [k [_ Hscan]].
  rewrite Hscan, Z.mul_0_l, Z.add_0_l, (scan_digits_stop _ _ _ Hc).
  rewrite (store_int_unsigned n Hn). reflexivity.
Qed.

(** The locals of [readNode] after scanning the file name of a key. *)
Lemma sscanf_tile_uri key init :
  key_wf key ->
  sscanf_key (tile_uri key) init = (lod key, tile_x key, tile_y key).
Proof.
  intros [Hl [Hx Hy]]. unfold sscanf_key, tile_uri.
  destruct init as [[l0 x0] y0]. simpl append.
  rewrite (scan_int_show _ "_"%char _ Hl eq_refl).
  simpl expect. cbv beta iota.
  rewrite (scan_int_show _ "_"%char _ Hx eq_refl).
  simpl expect. cbv beta iota.
  rewrite (scan_int_show _ "."%char _ Hy eq_refl). reflexivity.
Qed.

Lemma all_chars_app p s1 s2 :
  all_chars p (s1 ++ s2)%string = all_chars p s1 && all_chars p s2.
Proof.
  induction s1 as [|c s1 IH]; simpl; [reflexivity|].
  rewrite IH. apply andb_assoc.
Qed.

Lemma all_chars_impl (p q : ascii -> bool) s :
  (forall c, p c = true -> q c = true) ->
  all_chars p s = true -> all_chars q s = true.
Proof.
  intros Hpq. induction s as [|c s IH]; simpl; [reflexivity|].
  intros H. apply andb_true_iff in H. destruct H as [Hc Hs].
  rewrite (Hpq c Hc), (IH Hs). reflexivity.
Qed.

Lemma find_last_of_none p s :
  all_chars (fun c => negb (p c)) s = true -> find_last_of p s = None.
Proof.
  induction s as [|c s IH]; simpl; [reflexivity|].
  intros H. apply andb_true_iff in H. destruct H as [Hc Hs].
  rewrite (IH Hs). apply negb_true_iff in Hc. rewrite Hc. reflexivity.
Qed.

Lemma find_last_of_app p s1 c s2 :
  p c = true -> all_chars (fun c => negb (p c)) s2 = true ->
  find_last_of p (s1 ++ String c s2)%string = Some (String.length s1).
Proof.
  intros Hc Hs2. induction s1 as [|a s1 IH]; simpl.
  - rewrite (find_last_of_none p s2 Hs2), Hc. reflexivity.
  - rewrite IH. reflexivity.
Qed.

Lemma drop_app s1 c s2 :
  drop (S (String.length s1)) (s1 ++ String c s2)%string = s2.
Proof. induction s1 as [|a s1 IH]; simpl; [reflexivity | exact IH]. Qed.

Lemma field_char_plain c :
  is_field_char c = true ->
  negb (is_dot c) = true /\ negb (is_separator c) = true.
Proof.
  destruct c as [[] [] [] [] [] [] [] []]; vm_compute; intros H;
    try discriminate H; split; reflexivity.
Qed.

Lemma show_unsigned_field n : all_chars is_field_char (show_unsigned n) = true.
Proof.
  apply (all_chars_impl is_digit).
  - intros c Hc. unfold is_field_char. rewrite Hc. reflexivity.
  - apply show_digits_all. reflexivity.
Qed.

(** The extension of a tile's file name is the loader's. *)
Lemma tile_uri_extension key :
  getFileExtension (tile_uri key) = pseudo_extension.
Proof.
  set (stem := (show_unsigned (lod key) ++ "_" ++ show_unsigned (tile_x key)
                  ++ "_" ++ show_unsigned (tile_y key))%string).
  assert (E : tile_uri key = (stem ++ String "." pseudo_extension)%string).
  { unfold tile_uri, stem. rewrite !append_assoc. reflexivity. }
  assert (Hstem : all_chars is_field_char stem = true).
  { unfold stem. rewrite !all_chars_app, !show_unsigned_field. reflexivity. }
  unfold getFileExtension. rewrite E.
  rewrite (find_last_of_app is_dot stem "."%char pseudo_extension)
    by reflexivity.
  rewrite find_last_of_none; [apply drop_app|].
  rewrite all_chars_app. apply andb_true_iff. split; [|reflexivity].
  apply (all_chars_impl is_field_char); [|exact Hstem].
  intros c Hc. apply (field_char_plain c Hc).
Qed.

Lemma tile_uri_accepted key :
  acceptsExtension (getLowerCaseFileExtension (tile_uri key)) = true.
Proof.
  unfold getLowerCaseFileExtension. rewrite tile_uri_extension. reflexivity.
Qed.

(** ** The pseudo loader *)

(** With a context that holds the pager, [readNode] hands the key it
    scanned, in the pager's profile, to [loadKey]. *)
Lemma readNode_valid_context uri options pager progress log :
  acceptsExtension (getLowerCaseFileExtension uri) = true ->
  valid_context options pager progress ->
  readNode uri (Some options) log =
    let '(l, x, y) := sscanf_key uri stale_locals in
    let '(n, log') :=
      loadKey pager (mkTileKey l x y (getProfile pager)) progress log in
    (Returned (ReadResult_of_node n), log').
Proof.
  intros Hext [udc [Hudc [Hpager Hprogress]]]. unfold readNode.
  rewrite Hext. cbn [negb].
  destruct (sscanf_key uri stale_locals) as [[l x] y].
  rewrite Hudc, Hpager, Hprogress. unfold bind, ret.
  destruct (loadKey pager (mkTileKey l x y (getProfile pager)) progress log).
  reflexivity.
Qed.

(** The options that [createPagedNode] installs are such a context, as
    long as the pager has the name its constructor gave it. *)
Lemma loader_options_valid this :
  _name this = this_name ->
  let updater :=
    ProgressUpdater_new (Some (_progressMaster this)) stale_frame in
  valid_context (loader_options this updater) this (Some (_progress updater)).
Proof.
  intros Hname updater. unfold valid_context, loader_options.
  exists [ObjPager this; ObjUpdater updater].
  split; [destruct (_fileLocationCallback this); reflexivity|].
  simpl. rewrite Hname. split; reflexivity.
Qed.

(** C5: the file name that [createPagedNode] registers for a key with
    children is ["<level>_<x>_<y>.osgearth_pseudo_simple"]; the loader
    accepts it and scans the same level, x and y from it; with the options
    registered next to it, and with any context that holds a pager,
    [readNode] returns what [loadKey] of that pager returns for exactly
    that key; and ["1_2_3.osgearth_pseudo_simple"] resolves to the group of
    the paged nodes of (2,4,6), (2,5,6), (2,4,7), (2,5,7), made in that
    order. *)
Theorem tile_uri_round_trip this key progress log :
  key_wf key ->
  (_name this = this_name ->
   lod key < _maxLevel this ->
   lod key < _minLevel this \/ createNode this key progress <> None ->
   exists plod log' options handle,
     createPagedNode this key progress log = (Some (N_PagedLOD plod), log') /\
     getFileName plod 1 = tile_uri key /\
     _databaseOptions plod = Some options /\
     valid_context options this (Some handle) /\
     forall log2,
       readNode (getFileName plod 1) (Some options) log2 =
         let '(n, l) :=
           loadKey this
             (mkTileKey (lod key) (tile_x key) (tile_y key) (getProfile this))
             (Some handle) log2 in
         (Returned (ReadResult_of_node n), l)) /\
  acceptsExtension (getLowerCaseFileExtension (tile_uri key)) = true /\
  (forall init,
     sscanf_key (tile_uri key) init = (lod key, tile_x key, tile_y key)) /\
  (forall options pager handle log2,
     valid_context options pager handle ->
     readNode (tile_uri key) (Some options) log2 =
       let '(n, l) :=
         loadKey pager
           (mkTileKey (lod key) (tile_x key) (tile_y key) (getProfile pager))
           handle log2 in
       (Returned (ReadResult_of_node n), l)) /\
  (forall options pager handle log2,
     valid_context options pager handle ->
     let child x y := mkTileKey 2 x y (getProfile pager) in
     exists p0 p1 p2 p3 l0 l1 l2 l3,
       createPagedNode pager (child 4 6) handle log2
         = (Some (N_PagedLOD p0), l0) /\
       createPagedNode pager (child 5 6) handle l0
         = (Some (N_PagedLOD p1), l1) /\
       createPagedNode pager (child 4 7) handle l1
         = (Some (N_PagedLOD p2), l2) /\
       createPagedNode pager (child 5 7) handle l2
         = (Some (N_PagedLOD p3), l3) /\
       readNode "1_2_3.osgearth_pseudo_simple" (Some options) log2 =
         (Returned
            (mkReadResult FILE_LOADED
               (Some (N_Group [N_PagedLOD p0; N_PagedLOD p1;
                               N_PagedLOD p2; N_PagedLOD p3]))), l3)).
Proof.
  intros Hwf.
  assert (Hresolve : forall options pager handle log2,
            valid_context options pager handle ->
            readNode (tile_uri key) (Some options) log2 =
              let '(n, l) :=
                loadKey pager
                  (mkTileKey (lod key) (tile_x key) (tile_y key)
                     (getProfile pager)) handle log2 in
              (Returned (ReadResult_of_node n), l)).
  { intros options pager handle log2 Hctx.
    rewrite (readNode_valid_context _ _ _ _ _ (tile_uri_accepted key) Hctx).
    rewrite (sscanf_tile_uri key stale_locals Hwf). reflexivity. }
  split; [|split; [apply tile_uri_accepted|]; split;
            [intros init; apply sscanf_tile_uri, Hwf|];
            split; [exact Hresolve|]].
  - intros Hname Hmax Hkids.
    assert (Hreg : exists plod log',
              createPagedNode this key progress log
                = (Some (N_PagedLOD plod), log') /\
              getFileName plod 1 = tile_uri key /\
              _databaseOptions plod =
                Some (loader_options this
                        (ProgressUpdater_new (Some (_progressMaster this))
                           stale_frame))).
    { unfold_paged.
      assert (E : (lod key <? _maxLevel this) = true)
        by (apply Z.ltb_lt, Hmax).
      rewrite E.
      destruct (_minLevel this <=? lod key) eqn:Hmin;
        [destruct (createNode this key progress) eqn:Hc|].
      - destruct (_additive this); eexists; eexists; repeat split.
      - destruct Hkids as [Hlt | Hne]; [|contradiction].
        apply Z.leb_le in Hmin. lia.
      - destruct (_additive this); eexists; eexists; repeat split. }
    destruct Hreg as [plod [log' [Hrun [Hname1 Hopts]]]].
    exists plod, log'. eexists. eexists.
    split; [exact Hrun|]. split; [exact Hname1|]. split; [exact Hopts|].
    split; [apply (loader_options_valid this Hname)|].
    intros log2. rewrite Hname1.
    apply Hresolve, (loader_options_valid this Hname).
  - intros options pager handle log2 Hctx child.
    destruct (loadKey_four pager (mkTileKey 1 2 3 (getProfile pager))
                handle log2)
      as (p0 & p1 & p2 & p3 & l0 & l1 & l2 & l3 & E0 & E1 & E2 & E3 & E).
    exists p0, p1, p2, p3, l0, l1, l2, l3.
    split; [exact E0|]. split; [exact E1|].
    split; [exact E2|]. split; [exact E3|].
    rewrite (readNode_valid_context "1_2_3.osgearth_pseudo_simple"
               options pager handle log2 eq_refl Hctx).
    change (sscanf_key "1_2_3.osgearth_pseudo_simple" stale_locals)
      with (let '(l0, x0, y0) := stale_locals in (1, 2, 3)).
    destruct stale_locals as [[sl sx] sy]. rewrite E. reflexivity.
Qed.

(** C6: a file name whose extension is not the loader's is not handled,
    whatever the options; with the loader's extension and a user data
    container that does not hold the pager, the loader reports an error in
    reading; but with null options, or options without a user data
    container, the loader dereferences a null pointer. *)
Theorem readNode_failures uri log :
  (acceptsExtension (getLowerCaseFileExtension uri) = false ->
   forall options,
     readNode uri options log
     = (Returned (ReadResult_of_status FILE_NOT_HANDLED), log)) /\
  (acceptsExtension (getLowerCaseFileExtension uri) = true ->
   (forall options udc,
      _userDataContainer options = Some udc ->
      as_pager (getUserObject udc this_name) = None ->
      readNode uri (Some options) log
      = (Returned (ReadResult_of_status ERROR_IN_READING_FILE), log)) /\
   readNode uri None log = (NullDereference, log) /\
   (forall options,
      _userDataContainer options = None ->
      readNode uri (Some options) log = (NullDereference, log))).
Proof.
  unfold readNode. split.
  - intros Hext options. rewrite Hext. reflexivity.
  - intros Hext. rewrite Hext. cbn [negb].
    destruct (sscanf_key uri stale_locals) as [[l x] y].
    split; [|split].
    + intros options udc Hudc Hnone. rewrite Hudc, Hnone. reflexivity.
    + reflexivity.
    + intros options Hudc. rewrite Hudc. reflexivity.
Qed.

(** ** Further properties of the pager *)

(** The node that [createPagedNode] returns does not depend on the calls
    made before it. *)
Lemma createPagedNode_node this key progress log :
  fst (createPagedNode this key progress log)
  = fst (createPagedNode this key progress []).
Proof.
  unfold_paged.
  destruct (_minLevel this <=? lod key);
    [destruct (createNode this key progress)|]; reflexivity.
Qed.

Lemma createPagedNode_run this key progress log :
  createPagedNode this key progress log
  = (fst (createPagedNode this key progress []),
     if _minLevel this <=? lod key then log ++ [key] else log).
Proof.
  unfold_paged.
  destruct (_minLevel this <=? lod key);
    [destruct (createNode this key progress)|]; reflexivity.
Qed.

Lemma root_loop keys this : forall acc log root0 log0,
  acc log = (root0, log0) ->
  exists nodes,
    fold_left
      (fun (acc : M (list Node)) (key : TileKey) =>
         root <- acc ;;
         node <- createPagedNode this key None ;;
         match node with
         | Some n => ret (root ++ [n])
         | None => ret root
         end) keys acc log
    = (root0 ++ nodes,
       log0 ++ filter (fun k => _minLevel this <=? lod k) keys) /\
    map Some nodes
    = map (fun k => fst (createPagedNode this k None [])) keys.
Proof.
  induction keys as [|k keys IH]; intros acc log root0 log0 Hacc.
  - exists []. simpl. rewrite Hacc, !app_nil_r. split; reflexivity.
  - simpl fold_left.
    destruct (createPagedNode_some this k None log0) as [plod [l1 Hk]].
    assert (Hstep :
      (root <- acc ;;
       node <- createPagedNode this k None ;;
       match node with
       | Some n => ret (root ++ [n])
       | None => ret root
       end) log
      = (root0 ++ [N_PagedLOD plod],
         if _minLevel this <=? lod k then log0 ++ [k] else log0)).
    { unfold bind, ret. rewrite Hacc, Hk. f_equal.
      rewrite createPagedNode_run in Hk. congruence. }
    destruct (IH _ log _ _ Hstep) as [nodes [Hfold Hnodes]].
    exists (N_PagedLOD plod :: nodes). split.
    + rewrite Hfold. rewrite <- app_assoc. simpl.
      destruct (_minLevel this <=? lod k);
        [rewrite <- app_assoc|]; reflexivity.
    + simpl. rewrite Hnodes. f_equal.
      rewrite createPagedNode_run in Hk. congruence.
Qed.

(** X1: [buildRootNode] returns a group with one paged node for every root
    key of the profile, in the profile's order, each the node that
    [createPagedNode] makes for that key with a null progress; the builder
    is called, in that order, for the root keys at or above the minimum
    level and for no other key. *)
Theorem buildRootNode_roots this log :
  exists nodes,
    buildRootNode this log
    = (N_Group nodes,
       log ++ filter (fun k => _minLevel this <=? lod k)
                (getRootKeys (_profile this))) /\
    map Some nodes
    = map (fun k => fst (createPagedNode this k None []))
        (getRootKeys (_profile this)) /\
    List.length nodes = List.length (getRootKeys (_profile this)).
Proof.
  destruct (root_loop (getRootKeys (_profile this)) this (ret []) log [] log
              eq_refl) as [nodes [Hfold Hnodes]].
  exists nodes. split; [|split; [exact Hnodes|]].
  - unfold buildRootNode. unfold bind at 1. rewrite Hfold. reflexivity.
  - apply (f_equal (@List.length (option Node))) in Hnodes.
    rewrite !length_map in Hnodes. exact Hnodes.
Qed.

(** X2: in additive mode slot 0 of every paged node, with or without
    children, is visible from 0 up to [FLT_MAX]; when children are
    registered, slot 1 is visible from 0 up to the radius times the range
    factor, so that nearer than that both slots are shown. *)
Theorem additive_slot0_always_visible this key progress log :
  _additive this = true ->
  exists plod log',
    createPagedNode this key progress log = (Some (N_PagedLOD plod), log') /\
    (_rangeList plod = [(0%R, FLT_MAX)] /\
     getFileName plod 1 = EmptyString
     \/
     _rangeList plod =
       [(0%R, FLT_MAX); (0%R, (_radius plod * _rangeFactor this)%R)] /\
     getFileName plod 1 = tile_uri key) /\
    forall d, (0 <= d < FLT_MAX)%R ->
      in_range (nth 0 (_rangeList plod) (0%R, 0%R)) d.
Proof.
  intros Hadd. unfold_paged. rewrite Hadd.
  assert (Hin : forall d, (0 <= d < FLT_MAX)%R -> in_range (0%R, FLT_MAX) d)
    by (intros d Hd; exact Hd).
  destruct (_minLevel this <=? lod key);
    [destruct (createNode this key progress)|];
    destruct (lod key <? _maxLevel this);
    eexists; eexists; (split; [reflexivity|]); simpl;
    (split; [first [left; split; reflexivity | right; split; reflexivity]
            | exact Hin]).
Qed.

(** X3: a tile at or above the minimum level for which the builder
    returns null is a leaf, whatever the maximum level: the builder has
    been called once, slot 0 holds an empty group, centre and radius are
    those of the estimate, the one range runs from 0 to [FLT_MAX], and no
    file name, updater or loader options are registered. *)
Theorem empty_tile_leaf this key progress log :
  _minLevel this <= lod key ->
  createNode this key progress = None ->
  exists plod,
    createPagedNode this key progress log
    = (Some (N_PagedLOD plod), log ++ [key]) /\
    _children plod = [N_Group []] /\
    _center plod = center (getBounds key) /\
    _radius plod = radius (getBounds key) /\
    _rangeList plod = [(0%R, FLT_MAX)] /\
    _fileNames plod = [EmptyString] /\
    _cullCallbacks plod = [] /\
    _databaseOptions plod = None.
Proof.
  intros Hmin Hnone. unfold_paged.
  assert (E : (_minLevel this <=? lod key) = true) by (apply Z.leb_le, Hmin).
  rewrite E, Hnone.
  eexists; (split; [reflexivity|]); simpl.
  repeat split. unfold std_max.
  destruct (Rlt_dec (radius (getBounds key)) (radius (getBounds key)));
    reflexivity.
Qed.


(** The paged node of a key at or beyond the maximum level is a leaf. *)
Lemma paged_leaf this key progress log :
  _maxLevel this <= lod key ->
  exists plod,
    fst (createPagedNode this key progress log) = Some (N_PagedLOD plod) /\
    _rangeList plod = [(0%R, FLT_MAX)] /\
    _fileNames plod = [EmptyString] /\
    _databaseOptions plod = None.
Proof.
  intros Hmax. unfold_paged.
  assert (E : (lod key <? _maxLevel this) = false) by (apply Z.ltb_ge, Hmax).
  rewrite E.
  destruct (_minLevel this <=? lod key);
    [destruct (createNode this key progress)|];
    eexists; repeat split.
Qed.

(** X5: [loadKey] calls the builder for the children of the key that are
    at or above the minimum level, in the order 0, 1, 2, 3, with the
    progress it was given, and for no other key. *)
Theorem loadKey_log this key progress log :
  snd (loadKey this key progress log)
  = log ++ filter (fun k => _minLevel this <=? lod k) (child_keys key).
Proof.
  destruct (loadKey_four this key progress log)
    as (p0 & p1 & p2 & p3 & l0 & l1 & l2 & l3 & E0 & E1 & E2 & E3 & E).
  rewrite E. cbn [snd].
  change (child_keys key)
    with [createChildKey key 0; createChildKey key 1;
          createChildKey key 2; createChildKey key 3].
  revert E0 E1 E2 E3.
  generalize (createChildKey key 0) (createChildKey key 1)
    (createChildKey key 2) (createChildKey key 3).
  intros k0 k1 k2 k3 E0 E1 E2 E3.
  rewrite createPagedNode_run in E0, E1, E2, E3.
  injection E0 as _ <-. injection E1 as _ <-.
  injection E2 as _ <-. injection E3 as _ <-.
  cbn [filter].
  destruct (_minLevel this <=? lod k0); destruct (_minLevel this <=? lod k1);
    destruct (_minLevel this <=? lod k2); destruct (_minLevel this <=? lod k3);
    rewrite <- ?app_assoc; cbn [app]; rewrite ?app_nil_r; reflexivity.
Qed.

(** X6: when the children of a key are at or beyond the maximum level,
    [loadKey] returns four leaves: none of them registers a file name or
    loader options, so paging stops below them. *)
Theorem loadKey_last_level this key progress log :
  (forall k, In k (child_keys key) -> _maxLevel this <= lod k) ->
  exists p0 p1 p2 p3 log',
    loadKey this key progress log
    = (Some (N_Group [N_PagedLOD p0; N_PagedLOD p1;
                      N_PagedLOD p2; N_PagedLOD p3]), log') /\
    Forall (fun p => _rangeList p = [(0%R, FLT_MAX)] /\
                     _fileNames p = [EmptyString] /\
                     _databaseOptions p = None) [p0; p1; p2; p3].
Proof.
  intros Hlast.
  destruct (loadKey_four this key progress log)
    as (p0 & p1 & p2 & p3 & l0 & l1 & l2 & l3 & E0 & E1 & E2 & E3 & E).
  exists p0, p1, p2, p3, l3. split; [exact E|].
  assert (Hleaf : forall i p l l',
            In (createChildKey key i) (child_keys key) ->
            createPagedNode this (createChildKey key i) progress l
            = (Some (N_PagedLOD p), l') ->
            _rangeList p = [(0%R, FLT_MAX)] /\
            _fileNames p = [EmptyString] /\ _databaseOptions p = None).
  { intros i p l l' Hin Hrun.
    destruct (paged_leaf this (createChildKey key i) progress l
                (Hlast _ Hin)) as [q [Hq Hprops]].
    rewrite Hrun in Hq. simpl in Hq. injection Hq as <-. exact Hprops. }
  unfold child_keys in Hleaf. simpl in Hleaf.
  apply Forall_cons;
    [apply (Hleaf 0 p0 log l0); [left; reflexivity | exact E0]|].
  apply Forall_cons;
    [apply (Hleaf 1 p1 l0 l1); [right; left; reflexivity | exact E1]|].
  apply Forall_cons;
    [apply (Hleaf 2 p2 l1 l2); [right; right; left; reflexivity | exact E2]|].
  apply Forall_cons;
    [apply (Hleaf 3 p3 l2 l3);
     [right; right; right; left; reflexivity | exact E3]|].
  apply Forall_nil.
Qed.

(** X7: a range factor that is zero or negative switches paging off: the
    radius of a paged node is never negative, so the range of slot 1, from
    0 up to the radius times the factor, holds no distance at all and the
    children are never asked for. *)
Theorem nonpositive_range_factor_never_pages this key progress log :
  (_rangeFactor this <= 0)%R ->
  exists plod log',
    createPagedNode this key progress log = (Some (N_PagedLOD plod), log') /\
    forall r d, nth_error (_rangeList plod) 1 = Some r -> ~ in_range r d.
Proof.
  intros Hrf. unfold_paged.
  assert (Hempty : forall a d,
            ~ in_range
                (0%R, (std_max a (radius (getBounds key))
                       * _rangeFactor this)%R) d).
  { intros a d [H0 H1]. simpl in H0, H1.
    assert (Hr : (0 <= std_max a (radius (getBounds key)))%R).
    { eapply Rle_trans; [apply getBounds_radius_nonneg | apply std_max_ge_r]. }
    assert (Hm : (std_max a (radius (getBounds key)) * _rangeFactor this
                  <= 0)%R).
    { rewrite <- (Rmult_0_r (std_max a (radius (getBounds key)))).
      apply Rmult_le_compat_l; assumption. }
    lra. }
  destruct (_minLevel this <=? lod key);
    [destruct (createNode this key progress) as [c|]|];
    destruct (lod key <? _maxLevel this); try destruct (_additive this);
    eexists; eexists; (split; [reflexivity|]); simpl;
    intros r d E; try discriminate E; injection E as <-; apply Hempty.
Qed.

(** X8: with the loader's extension and a context that holds a pager,
    [readNode] always reports a loaded file whose object is a group of
    four paged nodes, whatever the rest of the file name is and whether or
    not the context holds a progress updater. *)
Theorem readNode_loaded uri options pager handle log :
  acceptsExtension (getLowerCaseFileExtension uri) = true ->
  valid_context options pager handle ->
  exists p0 p1 p2 p3 log',
    readNode uri (Some options) log
    = (Returned
         (mkReadResult FILE_LOADED
            (Some (N_Group [N_PagedLOD p0; N_PagedLOD p1;
                            N_PagedLOD p2; N_PagedLOD p3]))), log').
Proof.
  intros Hext Hctx.
  rewrite (readNode_valid_context uri options pager handle log Hext Hctx).
  destruct (sscanf_key uri stale_locals) as [[l x] y].
  destruct (loadKey_four pager (mkTileKey l x y (getProfile pager)) handle log)
    as (p0 & p1 & p2 & p3 & l0 & l1 & l2 & l3 & _ & _ & _ & _ & E).
  exists p0, p1, p2, p3, l3. rewrite E. reflexivity.
Qed.

(** X9: [readNode] does not look at what [sscanf] returns.  For a file
    name with the loader's extension that does not start with an integer,
    [loadKey] is called with the three locals as they were found; for one
    that holds a level only, with that level and the other two locals as
    they were found. *)
Theorem readNode_unparsed_name uri options pager handle log :
  acceptsExtension (getLowerCaseFileExtension uri) = true ->
  valid_context options pager handle ->
  let resolve l x y :=
    let '(n, log') :=
      loadKey pager (mkTileKey l x y (getProfile pager)) handle log in
    (Returned (ReadResult_of_node n), log') in
  (scan_int uri = None ->
   readNode uri (Some options) log
   = resolve (fst (fst stale_locals)) (snd (fst stale_locals))
       (snd stale_locals)) /\
  (forall l rest,
     scan_int uri = Some (l, rest) -> expect "_" rest = None ->
     readNode uri (Some options) log
     = resolve l (snd (fst stale_locals)) (snd stale_locals)).
Proof.
  intros Hext Hctx resolve. unfold resolve.
  rewrite (readNode_valid_context uri options pager handle log Hext Hctx).
  unfold sscanf_key. destruct stale_locals as [[l0 x0] y0].
  simpl fst; simpl snd.
  split.
  - intros ->. reflexivity.
  - intros l rest -> ->. reflexivity.
Qed.

(** X10: the loader finds the pager by the name that the constructor gave
    it.  For a pager that has another name, the options that
    [createPagedNode] installs no longer lead to it: every file name with
    the loader's extension gives an error in reading, and the builder is
    not called. *)
Theorem renamed_pager_not_found this uri log :
  acceptsExtension (getLowerCaseFileExtension uri) = true ->
  _name this <> this_name ->
  readNode uri
    (Some (loader_options this
             (ProgressUpdater_new (Some (_progressMaster this)) stale_frame)))
    log
  = (Returned (ReadResult_of_status ERROR_IN_READING_FILE), log).
Proof.
  intros Hext Hname. unfold readNode. rewrite Hext. cbn [negb].
  destruct (sscanf_key uri stale_locals) as [[l x] y].
  apply String.eqb_neq in Hname.
  unfold loader_options.
  destruct (_fileLocationCallback this); simpl; rewrite Hname; reflexivity.
Qed.

(** X11: tiles that differ in level, x or y get different file names. *)
Theorem tile_uri_injective k1 k2 :
  key_wf k1 -> key_wf k2 ->
  tile_uri k1 = tile_uri k2 ->
  lod k1 = lod k2 /\ tile_x k1 = tile_x k2 /\ tile_y k1 = tile_y k2.
Proof.
  intros H1 H2 E.
  assert (E1 := sscanf_tile_uri k1 (0, 0, 0) H1).
  assert (E2 := sscanf_tile_uri k2 (0, 0, 0) H2).
  rewrite E, E2 in E1. injection E1 as -> -> ->. repeat split.
Qed.

(** ** Further properties of the progress tracker *)

(** X12: a request whose updater is visited in the traversal in which the
    master was visited, with the same frame stamp, is not canceled,
    whatever the frame number. *)
Theorem visited_request_is_live (st : MasterStore) a m u f :
  _master (_progress u) = Some a ->
  st a = Some (ProgressMaster_visit (Some f) m) ->
  isCanceled st (_progress (ProgressUpdater_visit (Some f) u)) = false.
Proof.
  intros Hmaster Hst. unfold isCanceled, frame_lag, valid. simpl.
  rewrite Hmaster. simpl. rewrite Hst. simpl.
  unfold wrap32. rewrite Z.sub_diag. reflexivity.
Qed.

(** X13: with a live master that is [k] frames ahead of the frame at
    which the request was last seen, counted modulo 2^32, the request is
    canceled exactly when [k] is 2 or more: one missed frame is
    tolerated, also across the wrap of the frame counter. *)
Theorem isCanceled_lag (st : MasterStore) h m k :
  lock st (_master h) = Some m ->
  is_unsigned (_lastFrame h) ->
  0 <= k < 2 ^ 32 ->
  _frame m = wrap32 (_lastFrame h + k) ->
  isCanceled st h = (2 <=? k).
Proof.
  intros Hm Hl Hk Hf. unfold isCanceled, frame_lag, valid. rewrite Hm, Hf.
  simpl. unfold wrap32. rewrite Zminus_mod_idemp_l.
  replace (_lastFrame h + k - _lastFrame h) with k by lia.
  rewrite Z.mod_small by lia.
  destruct (1 <? k) eqn:E1, (2 <=? k) eqn:E2; try reflexivity.
  - apply Z.ltb_lt in E1. apply Z.leb_gt in E2. lia.
  - apply Z.ltb_ge in E1. apply Z.leb_le in E2. lia.
Qed.

Lemma lag_from_zero L :
  is_unsigned L ->
  (1 <? wrap32 (0 - L)) = negb ((L =? 0) || (L =? 2 ^ 32 - 1)).
Proof.
  unfold is_unsigned. intros Hl. rewrite Z.sub_0_l.
  destruct (Z.eq_dec L 0) as [-> | Hnz]; [reflexivity|].
  assert (E : wrap32 (- L) = 2 ^ 32 - L).
  { unfold wrap32. symmetry. apply Z.mod_unique with (q := -1); lia. }
  rewrite E.
  destruct (L =? 0) eqn:E0; [apply Z.eqb_eq in E0; lia|].
  destruct (L =? 2 ^ 32 - 1) eqn:E1; cbn [orb negb].
  - apply Z.eqb_eq in E1. apply Z.ltb_ge. lia.
  - apply Z.eqb_neq in E1. apply Z.ltb_lt. lia.
Qed.

(** X14: a traversal without frame stamp sets the master to frame 0 and
    leaves the requests as they are; after it a request is canceled
    unless it was last seen at frame 0 or at frame 2^32 - 1. *)
Theorem traversal_without_stamp (st : MasterStore) a m u :
  _master (_progress u) = Some a ->
  st a = Some (ProgressMaster_visit None m) ->
  is_unsigned (_lastFrame (_progress u)) ->
  isCanceled st (_progress (ProgressUpdater_visit None u))
  = negb ((_lastFrame (_progress u) =? 0)
          || (_lastFrame (_progress u) =? 2 ^ 32 - 1)).
Proof.
  intros Hmaster Hst Hl.
  unfold isCanceled, frame_lag, valid, ProgressUpdater_visit, touch.
  cbn [_progress]. rewrite Hmaster. cbn [lock]. rewrite Hst.
  cbn [negb orb ProgressMaster_visit _frame].
  apply lag_from_zero, Hl.
Qed.

(** X18: for a node with children, the progress updater installed as cull
    callback is the one the loader's options hold under the updater's
    name; its callback observes the pager's own progress master, its
    [_lastFrame] is what the member held when it was made, since neither
    constructor nor [createPagedNode] writes it; and the options carry the
    pager's file location callback. *)
Theorem registered_updater this key progress log :
  _name this = this_name ->
  lod key < _maxLevel this ->
  lod key < _minLevel this \/ createNode this key progress <> None ->
  exists plod log' u options udc,
    createPagedNode this key progress log = (Some (N_PagedLOD plod), log') /\
    _cullCallbacks plod = [u] /\
    _databaseOptions plod = Some options /\
    _userDataContainer options = Some udc /\
    as_updater (getUserObject udc ProgressUpdater_name) = Some u /\
    as_pager (getUserObject udc this_name) = Some this /\
    _master (_progress u) = Some (_progressMaster this) /\
    _lastFrame (_progress u) = stale_frame /\
    opt_fileLocationCallback options = _fileLocationCallback this.
Proof.
  intros Hname Hmax Hkids. unfold_paged.
  assert (E : (lod key <? _maxLevel this) = true) by (apply Z.ltb_lt, Hmax).
  rewrite E.
  assert (Hlookup :
    as_updater
      (getUserObject
         [ObjPager this;
          ObjUpdater
            (ProgressUpdater_new (Some (_progressMaster this)) stale_frame)]
         ProgressUpdater_name)
    = Some (ProgressUpdater_new (Some (_progressMaster this)) stale_frame) /\
    as_pager
      (getUserObject
         [ObjPager this;
          ObjUpdater
            (ProgressUpdater_new (Some (_progressMaster this)) stale_frame)]
         this_name)
    = Some this).
  { simpl. rewrite Hname. split; reflexivity. }
  destruct Hlookup as [Hu Hp].
  destruct (_minLevel this <=? lod key) eqn:Hmin;
    [destruct (createNode this key progress) eqn:Hc|].
  2: { destruct Hkids as [Hlt | Hne]; [|contradiction].
       apply Z.leb_le in Hmin. lia. }
  all: destruct (_additive this); unfold loader_options;
    destruct (_fileLocationCallback this);
    eexists; eexists; eexists; eexists; eexists;
    (split; [reflexivity|]); simpl;
    (split; [reflexivity|]); (split; [reflexivity|]);
    (split; [reflexivity|]); (split; [exact Hu|]); (split; [exact Hp|]);
    repeat split.
Qed.

End Pager.

(** * The properties at concrete pagers *)


Lemma fold_expandBy_same v n :
  fold_left expandBy (repeat v n) (mkSphere v 0) = mkSphere v 0.
Proof.
  induction n as [|n IH]; simpl; [reflexivity|].
  replace (expandBy (mkSphere v 0) v) with (mkSphere v 0); [exact IH|].
  unfold expandBy, sphere_valid; simpl.
  destruct (Rle_dec 0 0) as [_|H]; [|exfalso; apply H; lra].
  rewrite vsub_self, vlength_zero.
  destruct (Rlt_dec 0 0) as [H|_]; [exfalso; lra | reflexivity].
Qed.

Lemma fold_expandBy_first v n :
  fold_left expandBy (repeat v (S n)) BoundingSphere_init = mkSphere v 0.
Proof.
  simpl.
  replace (expandBy BoundingSphere_init v) with (mkSphere v 0);
    [apply fold_expandBy_same|].
  unfold expandBy, sphere_valid, BoundingSphere_init; simpl.
  destruct (Rle_dec 0 (-1)) as [H|_]; [exfalso; lra | reflexivity].
Qed.



(** The default pager splits the root tile in replace mode. *)
Lemma replace_mode_ranges_witness :
  lod key_0_0_0 < _maxLevel default_pager /\
  ball_createNode default_pager key_0_0_0 None <> None /\
  _additive default_pager = false /\
  exists plod log',
    createPagedNode ball_createNode flat_extent origin_toWorld 0
      default_pager key_0_0_0 None []
    = (Some (N_PagedLOD plod), log') /\
    _rangeList plod =
      [((_radius plod * 6)%R, FLT_MAX); (0%R, (_radius plod * 6)%R)].
Proof.
  assert (H1 : lod key_0_0_0 < _maxLevel default_pager) by (simpl; lia).
  assert (H2 : ball_createNode default_pager key_0_0_0 None <> None)
    by discriminate.
  split; [exact H1|]. split; [exact H2|]. split; [reflexivity|].
  destruct (replace_mode_ranges ball_createNode flat_extent origin_toWorld 0
              default_pager key_0_0_0 None [] H1 (or_intror H2) eq_refl)
    as (plod & log' & Hrun & Hranges & _).
  exists plod, log'. split; [exact Hrun | exact Hranges].
Defined.

(** With maximum level 1, a tile of level 1 is a leaf. *)
Lemma max_level_leaf_witness :
  _maxLevel shallow_pager <= lod key_1_2_3 /\
  exists plod log',
    createPagedNode ball_createNode flat_extent origin_toWorld 0
      shallow_pager key_1_2_3 None []
    = (Some (N_PagedLOD plod), log') /\
    _rangeList plod = [(0%R, FLT_MAX)] /\
    _fileNames plod = [EmptyString].
Proof.
  assert (H : _maxLevel shallow_pager <= lod key_1_2_3) by (simpl; lia).
  split; [exact H|].
  destruct (max_level_leaf ball_createNode flat_extent origin_toWorld 0
              shallow_pager key_1_2_3 None [] H)
    as (plod & log' & Hrun & _ & Hranges & Hnames & _).
  exists plod, log'. repeat split; assumption.
Defined.

(** With minimum level 5, a tile of level 1 gets no content, and its
    children are registered. *)
Lemma below_min_level_witness :
  lod key_1_2_3 < _minLevel deep_pager /\
  lod key_1_2_3 < _maxLevel deep_pager /\
  exists plod,
    createPagedNode ball_createNode flat_extent origin_toWorld 0
      deep_pager key_1_2_3 None []
    = (Some (N_PagedLOD plod), []) /\
    _children plod = [N_Group []] /\
    getFileName plod 1 = "1_2_3.osgearth_pseudo_simple"%string.
Proof.
  assert (H1 : lod key_1_2_3 < _minLevel deep_pager) by (simpl; lia).
  assert (H2 : lod key_1_2_3 < _maxLevel deep_pager) by (simpl; lia).
  split; [exact H1|]. split; [exact H2|].
  destruct (below_min_level ball_createNode flat_extent origin_toWorld 0
              deep_pager key_1_2_3 None [] H1)
    as (plod & Hrun & Hslot & Hkids).
  destruct (Hkids H2) as (Hname & _).
  exists plod. repeat split; assumption.
Defined.

(** The file name of the tile (1,2,3) of the default pager, and back. *)
Lemma tile_uri_round_trip_witness :
  key_wf key_1_2_3 /\
  _name default_pager = this_name /\
  lod key_1_2_3 < _maxLevel default_pager /\
  ball_createNode default_pager key_1_2_3 None <> None /\
  tile_uri key_1_2_3 = "1_2_3.osgearth_pseudo_simple"%string /\
  sscanf_key (tile_uri key_1_2_3) (7, 7, 7) = (1, 2, 3) /\
  exists plod log' options handle,
    createPagedNode ball_createNode flat_extent origin_toWorld 0
      default_pager key_1_2_3 None []
    = (Some (N_PagedLOD plod), log') /\
    _databaseOptions plod = Some options /\
    valid_context options default_pager (Some handle).
Proof.
  assert (H1 : key_wf key_1_2_3)
    by (unfold key_wf, is_unsigned; simpl; lia).
  assert (H2 : lod key_1_2_3 < _maxLevel default_pager) by (simpl; lia).
  assert (H3 : ball_createNode default_pager key_1_2_3 None <> None)
    by discriminate.
  split; [exact H1|]. split; [reflexivity|]. split; [exact H2|].
  split; [exact H3|]. split; [reflexivity|].
  destruct (tile_uri_round_trip ball_createNode flat_extent origin_toWorld 0
              (0, 0, 0) default_pager key_1_2_3 None [] H1)
    as (Hreg & _ & Hscan & _).
  destruct (Hreg eq_refl H2 (or_intror H3))
    as (plod & log' & options & handle & Hrun & _ & Hopts & Hctx & _).
  split; [apply Hscan|].
  exists plod, log', options, handle. repeat split; assumption.
Defined.

(** A tile for which the builder returns nothing is a leaf, although the
    builder was called for it. *)
Example empty_tile_is_leaf :
  exists plod,
    createPagedNode empty_createNode flat_extent origin_toWorld 0
      default_pager key_0_0_0 None []
    = (Some (N_PagedLOD plod), [key_0_0_0]) /\
    _children plod = [N_Group []] /\
    _rangeList plod = [(0%R, FLT_MAX)].
Proof. eexists. repeat split. Qed.

(** A request touched in the frame that the master has just seen is
    live; two frames later, untouched, it is canceled. *)
Example touch_then_cancel :
  let handle := touch (Some 41) (mkProgress 0 (Some O)) in
  isCanceled (fun _ => Some (ProgressMaster_visit (Some 41)
                               (mkProgressMaster 40))) handle = false /\
  isCanceled (fun _ => Some (ProgressMaster_visit (Some 43)
                               (mkProgressMaster 42))) handle = true.
Proof. split; reflexivity. Qed.

(** * Further properties at concrete pagers *)

Lemma all_equal_repeat {A : Type} (v : A) (l : list A) :
  (forall p, In p l -> p = v) -> l = repeat v (List.length l).
Proof.
  induction l as [|a l IH]; intros H; simpl; [reflexivity|].
  rewrite (H a (or_introl eq_refl)). f_equal.
  apply IH. intros p Hp. apply H. right. exact Hp.
Qed.

(** X15: the estimate of [getBounds] is never the empty sphere, its
    radius is not negative; and when all the sample points project to one
    world point, as for an extent of no size, the estimate is the sphere
    of radius 0 at that point. *)
Theorem getBounds_valid getExtent toWorld key :
  (0 <= radius (getBounds getExtent toWorld key))%R /\
  sphere_valid (getBounds getExtent toWorld key) = true /\
  forall v,
    (forall p, In p (sample_points getExtent toWorld key) -> p = v) ->
    getBounds getExtent toWorld key = mkSphere v 0.
Proof.
  split; [apply getBounds_radius_nonneg|]. split.
  - apply sphere_valid_true, getBounds_radius_nonneg.
  - intros v Hall. rewrite getBounds_fold.
    rewrite (all_equal_repeat v _ Hall), sample_points_length.
    exact (fold_expandBy_first v 48).
Qed.

Lemma additive_slot0_always_visible_witness :
  _additive additive_pager = true /\
  exists plod log',
    createPagedNode ball_createNode flat_extent origin_toWorld 0
      additive_pager key_0_0_0 None []
    = (Some (N_PagedLOD plod), log') /\
    in_range (nth 0 (_rangeList plod) (0%R, 0%R)) 1%R.
Proof.
  split; [reflexivity|].
  destruct (additive_slot0_always_visible ball_createNode flat_extent
              origin_toWorld 0 additive_pager key_0_0_0 None [] eq_refl)
    as (plod & log' & Hrun & _ & Hvis).
  exists plod, log'. split; [exact Hrun|]. apply Hvis.
  unfold FLT_MAX. split; [lra|]. apply IZR_lt. reflexivity.
Defined.

Lemma empty_tile_leaf_witness :
  _minLevel default_pager <= lod key_0_0_0 /\
  empty_createNode default_pager key_0_0_0 None = None /\
  exists plod,
    createPagedNode empty_createNode flat_extent origin_toWorld 0
      default_pager key_0_0_0 None []
    = (Some (N_PagedLOD plod), [key_0_0_0]) /\
    _rangeList plod = [(0%R, FLT_MAX)].
Proof.
  assert (H : _minLevel default_pager <= lod key_0_0_0) by (simpl; lia).
  split; [exact H|]. split; [reflexivity|].
  destruct (empty_tile_leaf empty_createNode flat_extent origin_toWorld 0
              default_pager key_0_0_0 None [] H eq_refl)
    as (plod & Hrun & _ & _ & _ & Hranges & _).
  exists plod. split; [exact Hrun | exact Hranges].
Defined.

Lemma loadKey_last_level_witness :
  (forall k, In k (child_keys key_0_0_0) -> _maxLevel shallow_pager <= lod k)
  /\
  exists p0 p1 p2 p3 log',
    loadKey ball_createNode flat_extent origin_toWorld 0
      shallow_pager key_0_0_0 None []
    = (Some (N_Group [N_PagedLOD p0; N_PagedLOD p1;
                      N_PagedLOD p2; N_PagedLOD p3]), log') /\
    _rangeList p0 = [(0%R, FLT_MAX)].
Proof.
  assert (H : forall k, In k (child_keys key_0_0_0) ->
                        _maxLevel shallow_pager <= lod k).
  { intros k Hk. unfold child_keys in Hk. cbn [map In] in Hk.
    destruct Hk as [<- | [<- | [<- | [<- | []]]]];
      apply Z.leb_le; reflexivity. }
  split; [exact H|].
  destruct (loadKey_last_level ball_createNode flat_extent origin_toWorld 0
              shallow_pager key_0_0_0 None [] H)
    as (p0 & p1 & p2 & p3 & log' & Hrun & Hleaves).
  exists p0, p1, p2, p3, log'. split; [exact Hrun|].
  apply (Forall_inv Hleaves).
Defined.

Lemma nonpositive_range_factor_witness :
  (_rangeFactor inverted_pager <= 0)%R /\
  exists plod log',
    createPagedNode ball_createNode flat_extent origin_toWorld 0
      inverted_pager key_0_0_0 None []
    = (Some (N_PagedLOD plod), log') /\
    forall r d, nth_error (_rangeList plod) 1 = Some r -> ~ in_range r d.
Proof.
  assert (H : (_rangeFactor inverted_pager <= 0)%R)
    by (unfold inverted_pager; cbn [_rangeFactor]; lra).
  split; [exact H|].
  exact (nonpositive_range_factor_never_pages ball_createNode flat_extent
           origin_toWorld 0 inverted_pager key_0_0_0 None [] H).
Defined.

Lemma readNode_loaded_witness :
  let options :=
    loader_options default_pager (ProgressUpdater_new (Some O) 0) in
  acceptsExtension
    (getLowerCaseFileExtension "9_9.OSGEARTH_PSEUDO_SIMPLE") = true /\
  valid_context options default_pager (Some (mkProgress 0 (Some O))) /\
  exists p0 p1 p2 p3 log',
    readNode ball_createNode flat_extent origin_toWorld 0 (7, 8, 9)
      "9_9.OSGEARTH_PSEUDO_SIMPLE" (Some options) []
    = (Returned
         (mkReadResult FILE_LOADED
            (Some (N_Group [N_PagedLOD p0; N_PagedLOD p1;
                            N_PagedLOD p2; N_PagedLOD p3]))), log').
Proof.
  intros options.
  assert (Hctx : valid_context options default_pager
                   (Some (mkProgress 0 (Some O))))
    by exact (loader_options_valid 0 default_pager eq_refl).
  split; [reflexivity|]. split; [exact Hctx|].
  exact (readNode_loaded ball_createNode flat_extent origin_toWorld 0
           (7, 8, 9) "9_9.OSGEARTH_PSEUDO_SIMPLE" options default_pager
           (Some (mkProgress 0 (Some O))) [] eq_refl Hctx).
Defined.

Lemma readNode_unparsed_name_witness :
  let options :=
    loader_options default_pager (ProgressUpdater_new (Some O) 0) in
  acceptsExtension
    (getLowerCaseFileExtension "tile.osgearth_pseudo_simple") = true /\
  valid_context options default_pager (Some (mkProgress 0 (Some O))) /\
  scan_int "tile.osgearth_pseudo_simple" = None /\
  readNode ball_createNode flat_extent origin_toWorld 0 (7, 8, 9)
    "tile.osgearth_pseudo_simple" (Some options) []
  = (let '(n, log') :=
       loadKey ball_createNode flat_extent origin_toWorld 0 default_pager
         (mkTileKey 7 8 9 O) (Some (mkProgress 0 (Some O))) [] in
     (Returned (ReadResult_of_node n), log')).
Proof.
  intros options.
  assert (Hctx : valid_context options default_pager
                   (Some (mkProgress 0 (Some O))))
    by exact (loader_options_valid 0 default_pager eq_refl).
  split; [reflexivity|]. split; [exact Hctx|]. split; [reflexivity|].
  exact (proj1 (readNode_unparsed_name ball_createNode flat_extent
                  origin_toWorld 0 (7, 8, 9) "tile.osgearth_pseudo_simple"
                  options default_pager (Some (mkProgress 0 (Some O))) []
                  eq_refl Hctx) eq_refl).
Defined.

Lemma renamed_pager_not_found_witness :
  acceptsExtension
    (getLowerCaseFileExtension "0_0_0.osgearth_pseudo_simple") = true /\
  _name renamed_pager <> this_name /\
  readNode ball_createNode flat_extent origin_toWorld 0 (7, 8, 9)
    "0_0_0.osgearth_pseudo_simple"
    (Some (loader_options renamed_pager (ProgressUpdater_new (Some O) 0))) []
  = (Returned (ReadResult_of_status ERROR_IN_READING_FILE), []).
Proof.
  assert (H : _name renamed_pager <> this_name) by discriminate.
  split; [reflexivity|]. split; [exact H|].
  exact (renamed_pager_not_found ball_createNode flat_extent origin_toWorld
           0 (7, 8, 9) renamed_pager "0_0_0.osgearth_pseudo_simple" []
           eq_refl H).
Defined.

(** Two keys of different profiles and the same level, x and y share a
    file name. *)
Lemma tile_uri_injective_witness :
  key_wf (mkTileKey 1 2 3 O) /\ key_wf (mkTileKey 1 2 3 (S O)) /\
  tile_uri (mkTileKey 1 2 3 O) = tile_uri (mkTileKey 1 2 3 (S O)) /\
  lod (mkTileKey 1 2 3 O) = lod (mkTileKey 1 2 3 (S O)).
Proof.
  assert (H1 : key_wf (mkTileKey 1 2 3 O))
    by (unfold key_wf, is_unsigned; simpl; lia).
  assert (H2 : key_wf (mkTileKey 1 2 3 (S O)))
    by (unfold key_wf, is_unsigned; simpl; lia).
  split; [exact H1|]. split; [exact H2|]. split; [reflexivity|].
  exact (proj1 (tile_uri_injective _ _ H1 H2 eq_refl)).
Defined.

Lemma visited_request_is_live_witness :
  _master (_progress updater_5) = Some O /\
  store_at 9 O = Some (ProgressMaster_visit (Some 9) (mkProgressMaster 8)) /\
  isCanceled (store_at 9)
    (_progress (ProgressUpdater_visit (Some 9) updater_5)) = false.
Proof.
  split; [reflexivity|]. split; [reflexivity|].
  exact (visited_request_is_live (store_at 9) O (mkProgressMaster 8)
           updater_5 9 eq_refl eq_refl).
Defined.

(** The master at frame 1 is 2^32 - 4 frames ahead of a request last seen
    at frame 5. *)
Lemma isCanceled_lag_witness :
  lock (store_at 1) (_master (_progress updater_5))
    = Some (mkProgressMaster 1) /\
  is_unsigned (_lastFrame (_progress updater_5)) /\
  0 <= 2 ^ 32 - 4 < 2 ^ 32 /\
  _frame (mkProgressMaster 1)
    = wrap32 (_lastFrame (_progress updater_5) + (2 ^ 32 - 4)) /\
  isCanceled (store_at 1) (_progress updater_5) = true.
Proof.
  assert (H1 : is_unsigned (_lastFrame (_progress updater_5)))
    by (unfold is_unsigned; simpl; lia).
  assert (H2 : 0 <= 2 ^ 32 - 4 < 2 ^ 32) by lia.
  split; [reflexivity|]. split; [exact H1|]. split; [exact H2|].
  split; [reflexivity|].
  exact (isCanceled_lag (store_at 1) (_progress updater_5)
           (mkProgressMaster 1) (2 ^ 32 - 4) eq_refl H1 H2 eq_refl).
Defined.

Lemma traversal_without_stamp_witness :
  _master (_progress updater_5) = Some O /\
  store_at 0 O = Some (ProgressMaster_visit None (mkProgressMaster 5)) /\
  is_unsigned (_lastFrame (_progress updater_5)) /\
  isCanceled (store_at 0) (_progress (ProgressUpdater_visit None updater_5))
    = true.
Proof.
  assert (H : is_unsigned (_lastFrame (_progress updater_5)))
    by (unfold is_unsigned; simpl; lia).
  split; [reflexivity|]. split; [reflexivity|]. split; [exact H|].
  exact (traversal_without_stamp (store_at 0) O (mkProgressMaster 5)
           updater_5 eq_refl eq_refl H).
Defined.

(** ** Further properties of the estimate *)





Lemma registered_updater_witness :
  _name default_pager = this_name /\
  lod key_0_0_0 < _maxLevel default_pager /\
  ball_createNode default_pager key_0_0_0 None <> None /\
  exists plod log' u,
    createPagedNode ball_createNode flat_extent origin_toWorld 42
      default_pager key_0_0_0 None []
    = (Some (N_PagedLOD plod), log') /\
    _cullCallbacks plod = [u] /\
    _lastFrame (_progress u) = 42.
Proof.
  assert (H1 : lod key_0_0_0 < _maxLevel default_pager) by (simpl; lia).
  assert (H2 : ball_createNode default_pager key_0_0_0 None <> None)
    by discriminate.
  split; [reflexivity|]. split; [exact H1|]. split; [exact H2|].
  destruct (registered_updater ball_createNode flat_extent origin_toWorld 42
              default_pager key_0_0_0 None [] eq_refl H1 (or_intror H2))
    as (plod & log' & u & options & udc & Hrun & Hcb & _ & _ & _ & _ & _
        & Hstale & _).
  exists plod, log', u. repeat split; assumption.
Defined.
